(** * Neurality Health front desk: turn-taking engine, tool layer, agent record

    A shallow embedding of the JavaScript sources

      - [src/twilio/webhook.js]  (mu-law decoding, utterance buffer, silence
        checker, barge-in, outgoing audio framing),
      - [src/mcp/server.js]      (tool endpoints, [simulateTool], booking store),
      - [src/livekit/agent.js]   (slot merge, tool trace, audit record, teardown),

    followed by the properties of these definitions.  Event handlers run to
    completion on the single JavaScript thread, so each handler is a function
    from the state before to the state after, together with the effects it
    issues; an [await] splits an async function into such handlers. *)

From Stdlib Require Import ZArith String Ascii List Bool Lia.
From stdpp Require Import base option list gmap strings.

Set Warnings "-register-all".
Local Open Scope string_scope.
Local Open Scope list_scope.
Local Open Scope Z_scope.

(* ===================================================================== *)
(** ** JSON values and JavaScript primitives shared by the three files    *)
(* ===================================================================== *)

Module Js.

(** JSON values as [JSON.parse] produces them and [JSON.stringify] consumes
    them.  Numbers are kept integral (the only numbers the code itself writes
    are [25] and [0]); an object is its list of own enumerable properties in
    insertion order. *)
Inductive JSON : Type :=
| JNull
| JBool (b : bool)
| JNum (n : Z)
| JStr (s : string)
| JArr (items : list JSON)
| JObj (fields : list (string * JSON)).

(** [o[k]] on a property list; [None] is [undefined].  A parsed object lists
    each property name once. *)
Fixpoint assoc (k : string) (fields : list (string * JSON)) : option JSON :=
  match fields with
  | [] => None
  | (k', v) :: rest => if String.eqb k k' then Some v else assoc k rest
  end.

(** [v.k] for a parsed value [v]; [None] is [undefined].  The callers read
    from request bodies, which are objects or arrays, or through [?.], so the
    [TypeError] of a plain read on [null] does not arise here. *)
Definition prop (k : string) (v : JSON) : option JSON :=
  match v with
  | JObj fields => assoc k fields
  | _ => None
  end.

(** JavaScript truthiness of a possibly-[undefined] JSON value. *)
Definition truthy (v : option JSON) : bool :=
  match v with
  | None => false
  | Some JNull => false
  | Some (JBool b) => b
  | Some (JNum n) => negb (n =? 0)
  | Some (JStr s) => negb (String.eqb s "")
  | Some (JArr _) => true
  | Some (JObj _) => true
  end.

(** [a || b] on values. *)
Definition orElse (a b : option JSON) : option JSON :=
  if truthy a then a else b.

(** ASCII case mapping, the part of [String.prototype.toLowerCase] and
    [toUpperCase] that can produce or remove the letters the code looks for. *)
Definition lowerAscii (c : ascii) : ascii :=
  let n := nat_of_ascii c in
  if (Nat.leb 65 n && Nat.leb n 90)%bool then ascii_of_nat (n + 32) else c.

Definition upperAscii (c : ascii) : ascii :=
  let n := nat_of_ascii c in
  if (Nat.leb 97 n && Nat.leb n 122)%bool then ascii_of_nat (n - 32) else c.

Fixpoint mapString (f : ascii -> ascii) (s : string) : string :=
  match s with
  | EmptyString => EmptyString
  | String c rest => String (f c) (mapString f rest)
  end.

Definition toLowerCase : string -> string := mapString lowerAscii.
Definition toUpperCase : string -> string := mapString upperAscii.

(** [needle] is found at offset 0 of [hay]. *)
Fixpoint startsWith (hay needle : string) {struct needle} : bool :=
  match needle with
  | EmptyString => true
  | String a needle' =>
      match hay with
      | EmptyString => false
      | String b hay' => Ascii.eqb a b && startsWith hay' needle'
      end
  end.

(** [hay.includes(needle)]: [needle] is found at some offset of [hay]. *)
Fixpoint includes (hay needle : string) : bool :=
  startsWith hay needle ||
  match hay with
  | EmptyString => false
  | String _ rest => includes rest needle
  end.

(** [needle] is a substring of [hay]. *)
Definition occursIn (needle hay : string) : Prop :=
  exists pre post, hay = String.append pre (String.append needle post).

(** [s.slice(from, to)] for [0 <= from <= to]. *)
Definition slice (from to : nat) (s : string) : string :=
  String.substring from (to - from) s.

(** A string is held as the bytes of its UTF-8 encoding.  [s.length] counts
    UTF-16 code units: one for a code point up to U+FFFF, two for a code point
    above it, which is a four-byte sequence; the bytes that continue a sequence
    ([0x80] to [0xBF]) count nothing. *)
Definition codeUnits (c : ascii) : nat :=
  let n := nat_of_ascii c in
  if Nat.ltb n 128 then 1
  else if Nat.ltb n 192 then 0
  else if Nat.ltb n 240 then 1
  else 2.

Fixpoint strLength (s : string) : nat :=
  match s with
  | EmptyString => 0
  | String c rest => codeUnits c + strLength rest
  end.

(** [ToInt32] and the store into an [Int16Array] element. *)
Definition int32 (z : Z) : Z := (z + 2 ^ 31) mod 2 ^ 32 - 2 ^ 31.
Definition int16 (z : Z) : Z := (z + 2 ^ 15) mod 2 ^ 16 - 2 ^ 15.

(** [a << n] and [a >>> n] on 32-bit operands. *)
Definition shl (a n : Z) : Z := int32 (Z.shiftl (int32 a) (Z.land n 31)).
Definition shru (a n : Z) : Z := Z.shiftr (a mod 2 ^ 32) (Z.land n 31).

End Js.

(* ===================================================================== *)
(** ** webhook.js: the mu-law transcoder                                  *)
(* ===================================================================== *)

Module Codec.

Definition BIAS : Z := 0x84.
Definition SIGN_BIT : Z := 0x80.
Definition QUANT_MASK : Z := 0x0F.
Definition SEG_SHIFT : Z := 4.
Definition SEG_MASK : Z := 0x70.

(** Body of the loop of [mulawToPcm16] for one wire byte [mu]. *)
Definition mulawToPcm16Sample (mu : Z) : Z :=
  let uVal := Z.land (Z.lnot mu) 0xff in
  let t := Z.land uVal QUANT_MASK in
  let t := Js.int32 (Js.shl t 3 + BIAS) in
  let t := Js.shl t (Js.shru (Z.land uVal SEG_MASK) SEG_SHIFT) in
  let t := Js.int32 (t - BIAS) in
  Js.int16 (if Z.land uVal SIGN_BIT =? 0 then t else - t).

(** [mulawToPcm16(muBuf)]: one 16-bit sample per wire byte. *)
Definition mulawToPcm16 (muBuf : list Z) : list Z :=
  map mulawToPcm16Sample muBuf.

(** Modelled from the spec: the encoder [muLawEncode] is the [encode] export of
    the npm package mulaw-js, which is not part of the sources.  The spec names
    it as the standard logarithmic narrow-band codec, so it is modelled as the
    G.711 mu-law compressor with the constants of [mulawToPcm16] (bias 0x84,
    eight segments, sixteen steps per segment). *)
Definition segEnd : list Z :=
  [0xFF; 0x1FF; 0x3FF; 0x7FF; 0xFFF; 0x1FFF; 0x3FFF; 0x7FFF].

Fixpoint search (val : Z) (table : list Z) (seg : Z) : Z :=
  match table with
  | [] => seg
  | e :: rest => if val <=? e then seg else search val rest (seg + 1)
  end.

Definition muLawEncodeSample (pcm : Z) : Z :=
  let mag := if pcm <? 0 then BIAS - pcm else pcm + BIAS in
  let mask := if pcm <? 0 then 0x7F else 0xFF in
  let seg := search mag segEnd 0 in
  if 8 <=? seg then Z.lxor 0x7F mask
  else Z.lxor (Z.lor (Z.shiftl seg 4) (Z.land (Z.shiftr mag (seg + 3)) 0xF)) mask.

Definition muLawEncode (pcm : list Z) : list Z := map muLawEncodeSample pcm.

(** The 256 wire byte values. *)
Definition allBytes : list Z := map Z.of_nat (seq 0 256).

End Codec.


(* ===================================================================== *)
(** ** webhook.js: per-connection turn-taking state                       *)
(* ===================================================================== *)

Module Webhook.

Definition SILENCE_MS : Z := 800.
Definition MAX_UTTERANCE_MS : Z := 6000.
Definition MIN_AUDIO_SAMPLES : Z := 4000.
Definition BARGE_IN_THRESHOLD : Z := 3200.
Definition FRAME_SAMPLES : nat := 160.

(** An [Int16Array] of PCM samples. *)
Definition Pcm : Type := list Z.

(** The handle returned by [setTimeout] for the end of playback.  Its delay is
    [samples / sampleRate * 1000 + 200] ms; only the operands are recorded. *)
Inductive Timer : Type :=
| SpeechTimer (samples : nat) (sampleRate : Z).

(** Where a suspended call of [processUtterance] waits, with the locals its
    continuation still needs. *)
Inductive Stage : Type :=
| AwaitTranscript (samples : Pcm)
| AwaitReply (text : string)
| AwaitAudio (reply : string).

(** The [let] variables of the connection closure; [pending] is the suspended
    [processUtterance] call, if any. *)
Record Session : Type := mkSession {
  pcmBuffer : list Pcm;
  lastMediaAt : Z;
  firstMediaAt : Z;
  processing : bool;
  aiSpeaking : bool;
  aiSpeakingTimeout : option Timer;
  streamSid : option string;
  pending : option Stage
}.

(** State at [wss.on("connection")], entered at time [t0]. *)
Definition initial (t0 : Z) : Session :=
  mkSession [] t0 0 false false None None None.

(** Calls that leave the handler. *)
Inductive Effect : Type :=
| Transcribe (samples : Pcm)
| AskAgent (text : string)
| Synthesize (reply : string)
| SendMedia (sid : option string) (frame : Pcm).

(** What the event loop delivers to this connection.  [Audio r accept] resumes
    after [textToAudio] with its result [r] ([None] is [null]); [accept] is the
    number of [ws.send] calls the socket takes before [readyState] leaves 1 or
    [send] throws.  [Threw] resumes a suspended call with a rejected promise. *)
Inductive Event : Type :=
| Start (sid : option string)
| Media (payload : list Z)
| Stop
| Malformed
| Tick
| Transcript (text : string)
| Reply (reply : string)
| Audio (result : option (Pcm * Z)) (accept : nat)
| Threw
| SpeechTimeout.

(** [!streamSid] is false. *)
Definition sidSet (s : Session) : bool :=
  match streamSid s with
  | Some sid => negb (String.eqb sid "")
  | None => false
  end.

(** [buf.reduce((sum, b) => sum + b.length, 0)]. *)
Definition totalSamples (buf : list Pcm) : Z :=
  fold_left (fun sum b => sum + Z.of_nat (length b)) buf 0.

Definition concatInt16 (chunks : list Pcm) : Pcm := concat chunks.

(** The [finally] block of [processUtterance]. *)
Definition finish (s : Session) : Session :=
  mkSession (pcmBuffer s) (lastMediaAt s) 0 false (aiSpeaking s)
            (aiSpeakingTimeout s) (streamSid s) None.

(** [processUtterance()] up to its first [await]. *)
Definition processUtterance (s : Session) : Session * list Effect :=
  if processing s then (s, [])
  else
    let samples := concatInt16 (pcmBuffer s) in
    let s1 := mkSession [] (lastMediaAt s) (firstMediaAt s) true (aiSpeaking s)
                        (aiSpeakingTimeout s) (streamSid s) (pending s) in
    if Z.of_nat (length samples) <? MIN_AUDIO_SAMPLES then (finish s1, [])
    else
      (mkSession [] (lastMediaAt s) (firstMediaAt s) true (aiSpeaking s)
                 (aiSpeakingTimeout s) (streamSid s) (Some (AwaitTranscript samples)),
       [Transcribe samples]).

(** The downsampling prologue of [sendPcm16AsMulaw].  The ratio
    [sampleRate / 8000] is a float in the source; the quotients below are exact
    for the one rate the caller passes (24000, ratio 3). *)
Definition resample (int16 : Pcm) (sampleRate : Z) : Pcm :=
  if sampleRate =? 8000 then int16
  else
    let outLen := Z.to_nat (Z.of_nat (length int16) * 8000 / sampleRate) in
    map (fun i => nth (Z.to_nat (Z.of_nat i * sampleRate / 8000)) int16 0)
        (seq 0 outLen).

(** The frame loop of [sendPcm16AsMulaw]: full slices of 160 samples, stopping
    at the first short one.  [fuel] bounds the number of iterations. *)
Fixpoint frames (fuel : nat) (src : Pcm) : list Pcm :=
  match fuel with
  | O => []
  | S fuel' =>
      let slice := firstn FRAME_SAMPLES src in
      if Nat.ltb (length slice) FRAME_SAMPLES then []
      else slice :: frames fuel' (skipn FRAME_SAMPLES src)
  end.

(** [sendPcm16AsMulaw(int16, sampleRate)]: it contains no [await], so every
    frame is handed to [ws.send] before the caller resumes.  Each [SendMedia]
    stands for the message whose payload is the base64 of [muLawEncode] of the
    slice. *)
Definition sendPcm16AsMulaw (sid : option string) (int16 : Pcm) (sampleRate : Z)
    (accept : nat) : list Effect :=
  let src := resample int16 sampleRate in
  map (SendMedia sid) (firstn accept (frames (length src) src)).

(** The [case "media"] branch of the message handler at time [now]. *)
Definition onMedia (s : Session) (now : Z) (mu : list Z) : Session :=
  let pcm16 := Codec.mulawToPcm16 mu in
  if aiSpeaking s then
    let buf := pcmBuffer s ++ [pcm16] in
    if totalSamples buf >? BARGE_IN_THRESHOLD then
      mkSession buf now now (processing s) false None (streamSid s) (pending s)
    else
      mkSession buf (lastMediaAt s) (firstMediaAt s) (processing s) true
                (aiSpeakingTimeout s) (streamSid s) (pending s)
  else
    mkSession (pcmBuffer s ++ [pcm16]) now
              (if firstMediaAt s =? 0 then now else firstMediaAt s)
              (processing s) (aiSpeaking s) (aiSpeakingTimeout s) (streamSid s)
              (pending s).

(** The body of the [setInterval] callback at time [now]. *)
Definition onTick (s : Session) (now : Z) : Session * list Effect :=
  let hasBuffer := negb (Nat.eqb (length (pcmBuffer s)) 0) in
  if negb (sidSet s) then (s, [])
  else if aiSpeaking s then (s, [])
  else if hasBuffer then
    let silenceDuration := now - lastMediaAt s in
    let utteranceDuration :=
      now - (if firstMediaAt s =? 0 then now else firstMediaAt s) in
    if silenceDuration >? SILENCE_MS then processUtterance s
    else if negb (firstMediaAt s =? 0) && (utteranceDuration >? MAX_UTTERANCE_MS)
    then processUtterance s
    else (s, [])
  else (s, []).

(** [processUtterance] from [aiSpeaking = true] to the end of [finally]: no
    other handler runs in between, since the only [await] there is on the
    already-settled promise of [sendPcm16AsMulaw]. *)
Definition speak (s : Session) (int16 : Pcm) (sampleRate : Z) (accept : nat)
    : Session * list Effect :=
  (mkSession [] (lastMediaAt s) 0 false true
             (Some (SpeechTimer (length int16) sampleRate)) (streamSid s) None,
   sendPcm16AsMulaw (streamSid s) int16 sampleRate accept).

Definition withPending (s : Session) (st : Stage) : Session :=
  mkSession (pcmBuffer s) (lastMediaAt s) (firstMediaAt s) (processing s)
            (aiSpeaking s) (aiSpeakingTimeout s) (streamSid s) (Some st).

(** One turn of the event loop for this connection at time [now]. *)
Definition step (s : Session) (now : Z) (ev : Event) : Session * list Effect :=
  match ev with
  | Start sid =>
      (mkSession (pcmBuffer s) (lastMediaAt s) (firstMediaAt s) (processing s)
                 (aiSpeaking s) (aiSpeakingTimeout s) sid (pending s), [])
  | Media mu => (onMedia s now mu, [])
  | Stop => (s, [])
  | Malformed => (s, [])
  | Tick => onTick s now
  | Transcript text =>
      match pending s with
      | Some (AwaitTranscript _) =>
          if String.eqb text "" || Nat.ltb (Js.strLength text) 3
          then (finish s, [])
          else (withPending s (AwaitReply text), [AskAgent text])
      | _ => (s, [])
      end
  | Reply reply =>
      match pending s with
      | Some (AwaitReply _) => (withPending s (AwaitAudio reply), [Synthesize reply])
      | _ => (s, [])
      end
  | Audio result accept =>
      match pending s with
      | Some (AwaitAudio _) =>
          match result with
          | None => (finish s, [])
          | Some (int16, sampleRate) => speak s int16 sampleRate accept
          end
      | _ => (s, [])
      end
  | Threw =>
      match pending s with
      | Some _ => (finish s, [])
      | None => (s, [])
      end
  | SpeechTimeout =>
      match aiSpeakingTimeout s with
      | Some _ =>
          (mkSession (pcmBuffer s) (lastMediaAt s) (firstMediaAt s) (processing s)
                     false None (streamSid s) (pending s), [])
      | None => (s, [])
      end
  end.

(** A run of the connection: timestamped events in delivery order. *)
Fixpoint run (s : Session) (evs : list (Z * Event)) : Session * list Effect :=
  match evs with
  | [] => (s, [])
  | (now, ev) :: rest =>
      let '(s1, out1) := step s now ev in
      let '(s2, out2) := run s1 rest in
      (s2, out1 ++ out2)
  end.

Definition reachable (s : Session) : Prop :=
  exists t0 evs, fst (run (initial t0) evs) = s.

(** The turn state the two flags encode.  The code keeps no separate idle
    state: a connection with neither flag set accepts caller audio. *)
Inductive TurnState : Type := Listening | Thinking | Speaking.

Definition turnState (s : Session) : TurnState :=
  if aiSpeaking s then Speaking
  else if processing s then Thinking
  else Listening.

(** No outgoing media frame occurs before the next utterance is handed to
    speech recognition. *)
Fixpoint quietUntilNextUtterance (out : list Effect) : bool :=
  match out with
  | [] => true
  | Transcribe _ :: _ => true
  | SendMedia _ _ :: _ => false
  | _ :: rest => quietUntilNextUtterance rest
  end.

(** Relations between the flags that every handler maintains. *)
Definition consistent (s : Session) : Prop :=
  (pending s = None <-> processing s = false)
  /\ (aiSpeaking s = true -> processing s = false)
  /\ (aiSpeaking s = false -> aiSpeakingTimeout s = None).

End Webhook.

(* ===================================================================== *)
(** ** mcp/server.js: tool endpoints                                      *)
(* ===================================================================== *)

Module Mcp.
Import Js.

Definition tools : list string :=
  ["checkInsuranceCoverage"; "getProviderAvailability"; "bookAppointment"; "sendSms"].

(** The result of [validate(schema, data)] in utils/validator.js:
    [{ ok, errors: validate.errors }]. *)
Record Validation : Type := mkValidation { ok : bool; errors : JSON }.

(** A parsed [schemas/<tool>.json]. *)
Record Schema : Type := mkSchema { input : JSON; output : JSON }.

(** One [logger.info] record. *)
Record LogEntry : Type := mkLogEntry {
  logTool : string;
  logInput : JSON;
  logOutput : JSON
}.

(** Module-level state of the server process: the [bookingStore] map in
    insertion order, the number of [Math.random()] calls made so far, and the
    records written through [logger]. *)
Record Server : Type := mkServer {
  bookingStore : list (option JSON * JSON);
  draws : nat;
  log : list LogEntry
}.

Definition emptyServer : Server := mkServer [] 0 [].

(** What the client of an endpoint receives.  [Uncaught] is an exception that
    leaves the handler, [NotFound] a path with no route. *)
Inductive Response : Type :=
| Json (status : Z) (body : JSON)
| Uncaught
| NotFound.

(** Key comparison of a JavaScript [Map] (SameValueZero).  Keys come from
    separately parsed request bodies, so two arrays or two objects are never the
    same reference. *)
Definition sameValueZero (a b : option JSON) : bool :=
  match a, b with
  | None, None => true
  | Some JNull, Some JNull => true
  | Some (JBool x), Some (JBool y) => Bool.eqb x y
  | Some (JNum x), Some (JNum y) => x =? y
  | Some (JStr x), Some (JStr y) => String.eqb x y
  | _, _ => false
  end.

(** [store.get(key)]; the entries never hold [undefined], so [None] is exactly
    [!store.has(key)]. *)
Fixpoint mapGet (key : option JSON) (store : list (option JSON * JSON)) : option JSON :=
  match store with
  | [] => None
  | (k, v) :: rest => if sameValueZero key k then Some v else mapGet key rest
  end.

Definition mapHas (key : option JSON) (store : list (option JSON * JSON)) : bool :=
  match mapGet key store with Some _ => true | None => false end.

(** [store.set(key, v)]. *)
Fixpoint mapSet (key : option JSON) (v : JSON) (store : list (option JSON * JSON))
    : list (option JSON * JSON) :=
  match store with
  | [] => [(key, v)]
  | (k, v') :: rest =>
      if sameValueZero key k then (k, v) :: rest else (k, v') :: mapSet key v rest
  end.


Definition valueOr (v : option JSON) (d : JSON) : JSON :=
  match v with Some x => x | None => d end.

Section Endpoints.

(** Ajv's verdict, the schema files, the values of
    [Math.random().toString(36)] in call order, and the [Date] arithmetic of
    [getProviderAvailability] ([None] when [toISOString] throws on an invalid
    date) belong to the runtime and to files outside the sources. *)
Variable validate : JSON -> JSON -> Validation.
Variable schemaOf : string -> Schema.
Variable random36 : nat -> string.
Variable slotTimes : option JSON -> nat -> option (string * string).

Definition availabilitySlot (input : JSON) (start : option JSON) (i : nat) : option JSON :=
  match slotTimes start i with
  | None => None
  | Some (slotStart, slotEnd) =>
      Some (JObj [("start", JStr slotStart); ("end", JStr slotEnd);
                  ("provider_id",
                   valueOr (orElse (prop "provider_id" input) (Some (JStr "DR001"))) JNull)])
  end.

(** [simulateTool(name, input)]; [None] is a thrown exception.  [input] is a
    request body that body-parser accepted, hence an object or an array. *)
Definition simulateTool (name : string) (input : JSON) (st : Server)
    : option (JSON * Server) :=
  if String.eqb name "checkInsuranceCoverage" then
    match prop "payer" input with
    | Some (JStr payer) =>
        let covered :=
          includes (toLowerCase payer) "delta" ||
          includes (toLowerCase payer) "blue" ||
          includes (toLowerCase payer) "dental" in
        Some (JObj [("covered", JBool covered);
                    ("copay_estimate", JNum (if covered then 25 else 0));
                    ("notes", JStr (if covered then "Covered under preventive care"
                                    else "Not in network - cash pay available"))],
              st)
    | _ => None
    end
  else if String.eqb name "getProviderAvailability" then
    match prop "date_range" input with
    | Some JNull => None
    | Some range =>
        let start := prop "start" range in
        match availabilitySlot input start 0%nat,
              availabilitySlot input start 1%nat,
              availabilitySlot input start 2%nat with
        | Some a, Some b, Some c => Some (JObj [("slots", JArr [a; b; c])], st)
        | _, _, _ => None
        end
    | None => None
    end
  else if String.eqb name "bookAppointment" then
    let key := prop "idempotency_key" input in
    match mapGet key (bookingStore st) with
    | Some stored => Some (stored, st)
    | None =>
        let result :=
          JObj [("confirmation_id",
                 JStr (String.append "CONF-"
                         (toUpperCase (slice 2 10 (random36 (draws st))))));
                ("status", JStr "booked")] in
        Some (result,
              mkServer (mapSet key result (bookingStore st)) (S (draws st)) (log st))
    end
  else if String.eqb name "sendSms" then
    Some (JObj [("queued", JBool true);
                ("message_id",
                 JStr (String.append "SM"
                         (toUpperCase (slice 2 12 (random36 (draws st))))))],
          mkServer (bookingStore st) (S (draws st)) (log st))
  else Some (JObj [("ok", JBool false)], st).

Definition rejection (errs : JSON) : JSON :=
  JObj [("ok", JBool false); ("errors", errs)].

(** The handler that [startMCPServer] registers for [POST /<tool>]. *)
Definition handle (tool : string) (body : JSON) (st : Server) : Response * Server :=
  let v := validate (input (schemaOf tool)) body in
  if negb (ok v) then (Json 400 (rejection (errors v)), st)
  else
    match simulateTool tool body st with
    | None => (Uncaught, st)
    | Some (result, st1) =>
        let vOut := validate (output (schemaOf tool)) result in
        if negb (ok vOut) then (Json 500 (rejection (errors vOut)), st1)
        else (Json 200 result,
              mkServer (bookingStore st1) (draws st1)
                       (log st1 ++ [mkLogEntry tool body result]))
    end.

(** Whether the route registered as [/<tool>] takes the request path
    [/<path>].  Express compiles a route path with its defaults (routing
    neither case sensitive nor strict) into a pattern that is matched without
    regard to letter case and lets one trailing slash pass; only the ASCII
    letters of a path can match the letters of a tool name.  [path] is the
    path name of the request, without a query string. *)
Definition routeMatches (tool path : string) : bool :=
  String.eqb (toLowerCase path) (toLowerCase tool)
  || String.eqb (toLowerCase path) (String.append (toLowerCase tool) "/").

(** The tool whose handler runs for [POST /<path>]: the first registered route
    that matches. *)
Definition route (path : string) : option string :=
  find (fun tool => routeMatches tool path) tools.

(** A POST to [/<path>]: the handler gets the [tool] of its registration, not
    the spelling of the request. *)
Definition post (path : string) (body : JSON) (st : Server) : Response * Server :=
  match route path with
  | Some tool => handle tool body st
  | None => (NotFound, st)
  end.

(** The server state after a sequence of POST requests [(path, body)]. *)
Definition serve (st : Server) (reqs : list (string * JSON)) : Server :=
  fold_left (fun st r => snd (post r.1 r.2 st)) reqs st.

End Endpoints.

End Mcp.

(* ===================================================================== *)
(** ** livekit/agent.js: the conversation agent                           *)
(* ===================================================================== *)

Module Agent.
Import Js.

Record TranscriptEntry : Type := mkEntry {
  role : string;
  text : string;
  ts : string
}.

Record ToolCall : Type := mkToolCall {
  tool : string;
  input : JSON;
  output : JSON;
  ok : bool
}.

(** What the object [this.slots] inherits from: [Object.prototype], as the
    literal [{}] has it, or what an assignment to [__proto__] put in its place:
    [null], or an object or an array that [JSON.parse] built (which itself
    inherits from [Object.prototype], an array through [Array.prototype]). *)
Inductive Proto : Type :=
| ObjectPrototype
| NullPrototype
| ParsedObject (fields : list (string * JSON))
| ParsedArray (items : list JSON).

(** The fields of a [ConversationAgent].  The object [this.slots] is its own
    properties [slots], which are what [JSON.stringify] writes to the audit
    file, and its prototype [slotsProto]. *)
Record Agent : Type := mkAgent {
  callId : string;
  roomName : option string;
  connected : bool;
  transcript : list TranscriptEntry;
  toolTrace : list ToolCall;
  slots : gmap string JSON;
  intents : list string;
  slotsProto : Proto
}.

Definition create (callId : string) : Agent :=
  mkAgent callId None false [] [] ∅ [] ObjectPrototype.

Record Outcome : Type := mkOutcome {
  booked : bool;
  confirmation_id : JSON;
  next_steps : string
}.

(** The object [saveAudit] builds. *)
Record AuditData : Type := mkAuditData {
  call_id : string;
  auditTranscript : list TranscriptEntry;
  auditIntents : list string;
  auditSlots : gmap string JSON;
  tool_trace : list ToolCall;
  outcome : Outcome
}.

(** The audit sink: every [this.audit.push(data)] in call order (each one
    rewrites [logs/<callId>.json]). *)
Definition Sink : Type := list AuditData.

(** [intents.includes(name)]. *)
Definition hasIntent (name : string) (l : list string) : bool :=
  existsb (String.eqb name) l.

(** Whether the assignment [target.__proto__ = v] ends in the accessor that
    [Object.prototype] defines: the target has no property of that name of its
    own, and the prototype chain reaches [Object.prototype] without meeting a
    data property of that name (a parsed object can hold one, an array
    cannot). *)
Definition inheritsSetter (own : gmap string JSON) (proto : Proto) : bool :=
  match own !! "__proto__" with
  | Some _ => false
  | None =>
      match proto with
      | ObjectPrototype => true
      | NullPrototype => false
      | ParsedObject fields =>
          match assoc "__proto__" fields with Some _ => false | None => true end
      | ParsedArray _ => true
      end
  end.

(** The assignment [target[k] = v] that [Object.assign] performs.  Every
    property the target can inherit is a writable data property, for which the
    assignment creates or updates the target's own property, except
    [__proto__] of [Object.prototype]: its setter installs an object or [null]
    as the prototype of the target and ignores any other value. *)
Definition setProperty (target : gmap string JSON * Proto) (k : string) (v : JSON)
    : gmap string JSON * Proto :=
  if String.eqb k "__proto__" && inheritsSetter target.1 target.2 then
    match v with
    | JNull => (target.1, NullPrototype)
    | JObj fields => (target.1, ParsedObject fields)
    | JArr items => (target.1, ParsedArray items)
    | _ => target
    end
  else (<[k := v]> target.1, target.2).

(** [Object.assign(target, source)], [source] given by its own enumerable
    properties in order. *)
Definition objectAssign (target : gmap string JSON * Proto)
    (source : list (string * JSON)) : gmap string JSON * Proto :=
  fold_left (fun t kv => setProperty t kv.1 kv.2) source target.

(** [connect()]: [room] is the name [roomManager.createRoom] returned, [None]
    when it rejected. *)
Definition connect (a : Agent) (room : option string) : Agent :=
  mkAgent (callId a)
          (Some (match room with
                 | Some r => r
                 | None => String.append "call-" (callId a)
                 end))
          true (transcript a) (toolTrace a) (slots a) (intents a) (slotsProto a).

(** What the outside world answers during one turn.  [extraction] is the parsed
    completion as its own enumerable properties, [None] when the request or
    [JSON.parse] throws; a tool response is the parsed body with
    [response.ok], [None] when [fetch] or [response.json()] throws;
    [aiResponse] is [None] when [generateResponse] throws. *)
Record Turn : Type := mkTurn {
  userText : string;
  userTs : string;
  extraction : option (list (string * JSON));
  coverageResponse : option (JSON * bool);
  availabilityResponse : option (JSON * bool);
  rangeStart : string;
  rangeEnd : string;
  aiResponse : option string;
  agentTs : string
}.

Definition pushIntent (name : string) (l : list string) : list string :=
  if hasIntent name l then l else l ++ [name].

(** [callCheckInsurance(payer, plan)]. *)
Definition callCheckInsurance (a : Agent) (payer plan : JSON)
    (resp : option (JSON * bool)) : Agent :=
  match resp with
  | None => a
  | Some (result, respOk) =>
      mkAgent (callId a) (roomName a) (connected a) (transcript a)
              (toolTrace a ++
               [mkToolCall "check_insurance_coverage"
                  (JObj [("payer", payer); ("plan", plan);
                         ("procedure_code", JStr "D1110")])
                  result respOk])
              (slots a) (pushIntent "coverage_check" (intents a)) (slotsProto a)
  end.

(** [callGetAvailability(locationId, appointmentType)]. *)
Definition callGetAvailability (a : Agent) (locationId : JSON)
    (appointmentType : option JSON) (startIso endIso : string)
    (resp : option (JSON * bool)) : Agent :=
  match resp with
  | None => a
  | Some (result, respOk) =>
      mkAgent (callId a) (roomName a) (connected a) (transcript a)
              (toolTrace a ++
               [mkToolCall "get_provider_availability"
                  (JObj [("location_id", locationId);
                         ("date_range",
                          JObj [("start", JStr startIso); ("end", JStr endIso)]);
                         ("appointment_type",
                          Mcp.valueOr (orElse appointmentType (Some (JStr "cleaning")))
                                      JNull)])
                  result respOk])
              (slots a) (pushIntent "availability" (intents a)) (slotsProto a)
  end.

(** [extractSlotsAndCallTools(userText)]. *)
Definition extractSlotsAndCallTools (a : Agent) (t : Turn) : Agent :=
  match extraction t with
  | None => a
  | Some extracted =>
      let merged := objectAssign (slots a, slotsProto a) extracted in
      let a1 := mkAgent (callId a) (roomName a) (connected a) (transcript a)
                        (toolTrace a) merged.1 (intents a) merged.2 in
      let a2 :=
        if truthy (assoc "needs_coverage_check" extracted)
           && truthy (assoc "payer" extracted) && truthy (assoc "plan" extracted)
        then callCheckInsurance a1
               (Mcp.valueOr (assoc "payer" extracted) JNull)
               (Mcp.valueOr (assoc "plan" extracted) JNull)
               (coverageResponse t)
        else a1 in
      if truthy (assoc "needs_availability" extracted)
         && truthy (assoc "location_id" extracted)
      then callGetAvailability a2
             (Mcp.valueOr (assoc "location_id" extracted) JNull)
             (assoc "appointment_type" extracted)
             (rangeStart t) (rangeEnd t) (availabilityResponse t)
      else a2
  end.

Definition pushTranscript (a : Agent) (e : TranscriptEntry) : Agent :=
  mkAgent (callId a) (roomName a) (connected a) (transcript a ++ [e])
          (toolTrace a) (slots a) (intents a) (slotsProto a).

(** [processUtterance(userText)]: the agent afterwards and the reply, [None]
    when the call rejects. *)
Definition processUtterance (a : Agent) (t : Turn) : Agent * option string :=
  let a1 := pushTranscript a (mkEntry "user" (userText t) (userTs t)) in
  let a2 := extractSlotsAndCallTools a1 t in
  match aiResponse t with
  | None => (a2, None)
  | Some reply => (pushTranscript a2 (mkEntry "agent" reply (agentTs t)), Some reply)
  end.

(** [saveAudit()]. *)
Definition auditOf (a : Agent) : AuditData :=
  mkAuditData (callId a) (transcript a) (intents a) (slots a) (toolTrace a)
    (mkOutcome
       (hasIntent "book_appointment" (intents a))
       (Mcp.valueOr
          (orElse
             (match find (fun t => String.eqb (tool t) "book_appointment") (toolTrace a) with
              | Some t => prop "confirmation_id" (output t)
              | None => None
              end)
             (Some JNull))
          JNull)
       (if hasIntent "send_sms" (intents a) then "SMS sent" else "Pending")).

Definition saveAudit (a : Agent) (sink : Sink) : Sink := sink ++ [auditOf a].

(** [handleDisconnect()]. *)
Definition handleDisconnect (a : Agent) (sink : Sink) : Agent * Sink :=
  let a1 := mkAgent (callId a) (roomName a) false (transcript a) (toolTrace a)
                    (slots a) (intents a) (slotsProto a) in
  (a1, saveAudit a1 sink).

(** [disconnect()]; the call to [roomManager.deleteRoom] that follows does not
    touch the agent or the sink. *)
Definition disconnect (a : Agent) (sink : Sink) : Agent * Sink :=
  let '(a1, sink1) := if connected a then handleDisconnect a sink else (a, sink) in
  (a1, saveAudit a1 sink1).

(** A whole session as webhook.js drives it: construct, connect, the turns,
    then [disconnect] when the socket closes. *)
Definition session (callId : string) (room : option string) (turns : list Turn)
    : Agent * Sink :=
  disconnect (fold_left (fun a t => fst (processUtterance a t)) turns
                        (connect (create callId) room))
             [].

End Agent.

(* ===================================================================== *)
(** ** Concrete calls used to exercise the definitions                    *)
(* ===================================================================== *)

Module Scenario.
Import Webhook.

(** One 20 ms frame of wire audio (160 bytes) from the caller. *)
Definition frame20ms : list Z := repeat 0x00 160.

(** [n] media messages carrying [payload], 20 ms apart from [t0] on. *)
Definition burst (t0 : Z) (n : nat) (payload : list Z) : list (Z * Event) :=
  map (fun i => (t0 + 20 * Z.of_nat i, Media payload)) (seq 0 n).

(** The stream starts and the caller speaks half a second (25 frames, the last
    one at t = 500). *)
Definition untilListening : list (Z * Event) :=
  (0, Start (Some "MZ0001")) :: burst 20 25 frame20ms.

(** The silence checker hands the utterance over at t = 1400. *)
Definition untilThinking : list (Z * Event) :=
  untilListening ++ [(1400, Tick)].

(** Recognition and the agent answer. *)
Definition untilSynthesis : list (Z * Event) :=
  untilThinking ++ [(2400, Transcript "hello there"); (3100, Reply "Hi.")].

(** The reply, 0.6 s of audio at 24 kHz (30 outgoing frames), is sent at
    t = 3600; its timer is due at t = 4400. *)
Definition replyAudio : Pcm := repeat 7 (Z.to_nat 14400).

Definition untilSpeaking : list (Z * Event) :=
  untilSynthesis ++ [(3600, Audio (Some (replyAudio, 24000)) 1000%nat)].

(** The sessions these runs end in, evaluated. *)
Definition listeningSession : Session :=
  Eval vm_compute in fst (run (initial 0) untilListening).
Definition thinkingSession : Session :=
  Eval vm_compute in fst (run (initial 0) untilThinking).
Definition awaitingAudio : Session :=
  Eval vm_compute in fst (run (initial 0) untilSynthesis).
Definition speakingSession : Session :=
  Eval vm_compute in fst (run (initial 0) untilSpeaking).

(** Playback in progress with one caller frame buffered. *)
Definition speakingWithAudio : Session :=
  Eval vm_compute in fst (run speakingSession [(3620, Media frame20ms)]).

(** Playback in progress with twenty caller frames buffered: 3200 samples, the
    threshold itself. *)
Definition speakingAtThreshold : Session :=
  Eval vm_compute in fst (run speakingSession (burst 3620 20 frame20ms)).

(** The pipeline at work with one caller frame received meanwhile. *)
Definition thinkingWithAudio : Session :=
  Eval vm_compute in fst (run thinkingSession [(1420, Media frame20ms)]).

(** Continuing [speakingSession]: one caller frame arrives during playback;
    playback ends on its timer. *)
Definition naturalEnd : list (Z * Event) :=
  [(3620, Media frame20ms); (4400, SpeechTimeout)].

(** The caller then speaks half a second and pauses. *)
Definition nextUtterance : list (Z * Event) :=
  burst 4410 25 (repeat 0xFF 160) ++ [(5800, Tick)].

(** A runtime for the tool server: a validator that only checks that the
    property named by the schema is present, one schema per tool naming that
    property, a fixed random source, and no calendar. *)
Definition requireField (schema data : Js.JSON) : Mcp.Validation :=
  match schema with
  | Js.JStr field =>
      if Js.truthy (Js.prop field data) then Mcp.mkValidation true Js.JNull
      else Mcp.mkValidation false (Js.JArr [Js.JStr field])
  | _ => Mcp.mkValidation true Js.JNull
  end.

Definition schemaFor (tool : string) : Mcp.Schema :=
  if String.eqb tool "bookAppointment"
  then Mcp.mkSchema (Js.JStr "idempotency_key") Js.JNull
  else if String.eqb tool "checkInsuranceCoverage"
  then Mcp.mkSchema (Js.JStr "payer") Js.JNull
  else Mcp.mkSchema Js.JNull Js.JNull.

Definition fixedRandom (n : nat) : string :=
  if Nat.even n then "0.4fzyo82mvyr" else "0.k3j5h2lq9xa".

Definition noCalendar (start : option Js.JSON) (i : nat) : option (string * string) :=
  None.

Definition bookingBody : Js.JSON :=
  Js.JObj [("idempotency_key", Js.JStr "call-17-slot-0900");
           ("patient_first", Js.JStr "Maya")].

(** A booking request that lacks its idempotency key. *)
Definition incompleteBody : Js.JSON :=
  Js.JObj [("patient_first", Js.JStr "Maya")].

(** Two turns of a call: the caller gives a name and an insurer, then a phone
    number.  The extraction of the second turn reports the fields it did not
    hear as [null], as the prompt asks. *)
Definition turnName : Agent.Turn :=
  Agent.mkTurn
    "Hi, I'm Maya Patel. Do you take Delta Dental PPO for a cleaning?"
    "2025-10-28T17:00:00.000Z"
    (Some [("patient_first", Js.JStr "Maya"); ("patient_last", Js.JStr "Patel");
           ("phone", Js.JNull); ("payer", Js.JStr "Delta Dental");
           ("plan", Js.JStr "PPO"); ("appointment_type", Js.JStr "cleaning");
           ("time_pref", Js.JNull); ("location_id", Js.JNull);
           ("needs_coverage_check", Js.JBool true);
           ("needs_availability", Js.JBool false);
           ("needs_booking", Js.JBool false)])
    (Some (Js.JObj [("covered", Js.JBool true); ("copay_estimate", Js.JNum 25);
                    ("notes", Js.JStr "Covered under preventive care")], true))
    None "2025-10-29T08:00:00.000Z" "2025-11-05T08:00:00.000Z"
    (Some "Yes, we take Delta Dental PPO.") "2025-10-28T17:00:02.000Z".

Definition turnPhone : Agent.Turn :=
  Agent.mkTurn
    "My number is 408-555-1234."
    "2025-10-28T17:00:10.000Z"
    (Some [("patient_first", Js.JNull); ("patient_last", Js.JNull);
           ("phone", Js.JStr "+14085551234"); ("payer", Js.JNull);
           ("plan", Js.JNull); ("appointment_type", Js.JNull);
           ("time_pref", Js.JNull); ("location_id", Js.JNull);
           ("needs_coverage_check", Js.JBool false);
           ("needs_availability", Js.JBool false);
           ("needs_booking", Js.JBool false)])
    None None "2025-10-29T08:00:00.000Z" "2025-11-05T08:00:00.000Z"
    (Some "Thanks, I have your number.") "2025-10-28T17:00:12.000Z".

Definition coverageBody : Js.JSON :=
  Js.JObj [("payer", Js.JStr "Delta Dental"); ("plan", Js.JStr "PPO");
           ("procedure_code", Js.JStr "D1110")].

End Scenario.

(* ===================================================================== *)
(** ** livekit/roomManager.js: the room directory                         *)
(* ===================================================================== *)

Module Rooms.

(** The fields of a [LiveKitRoomManager]: [roomService] records whether the
    client object exists; [activeRooms] is the [Map] from call id to room
    name. *)
Record Manager : Type := mkManager {
  enabled : bool;
  roomService : bool;
  activeRooms : gmap string string
}.

(** The constructor: [clientOk] is false when [new RoomServiceClient] throws. *)
Definition construct (clientOk : bool) : Manager :=
  mkManager clientOk clientOk ∅.

(** Requests sent to the room service. *)
Inductive ServiceCall : Type :=
| CreateRoomCall (name : string) (emptyTimeout maxParticipants : Z)
| DeleteRoomCall (name : string).

(** How the service answers: it resolves, or rejects with an error whose
    [message] may be missing. *)
Inductive ServiceReply : Type :=
| Resolved
| Rejected (message : option string).

Definition roomNameOf (callId : string) : string := String.append "call-" callId.

Definition register (m : Manager) (callId name : string) : Manager :=
  mkManager (enabled m) (roomService m) (<[callId := name]> (activeRooms m)).

Definition unregister (m : Manager) (callId : string) : Manager :=
  mkManager (enabled m) (roomService m) (delete callId (activeRooms m)).

(** [createRoom(callId)]: the name returned, the manager afterwards and the
    service requests made. *)
Definition createRoom (m : Manager) (callId : string) (reply : ServiceReply)
    : string * Manager * list ServiceCall :=
  let roomName := roomNameOf callId in
  if negb (enabled m) || negb (roomService m) then
    (roomName, register m callId roomName, [])
  else
    match reply with
    | Resolved =>
        (roomName, register m callId roomName, [CreateRoomCall roomName 300 2])
    | Rejected message =>
        if match message with
           | Some text => Js.includes text "already exists"
           | None => false
           end
        then (roomName, register m callId roomName, [CreateRoomCall roomName 300 2])
        else (roomName, register m callId roomName, [CreateRoomCall roomName 300 2])
    end.

(** [deleteRoom(callId)]. *)
Definition deleteRoom (m : Manager) (callId : string) (reply : ServiceReply)
    : Manager * list ServiceCall :=
  match activeRooms m !! callId with
  | None => (m, [])
  | Some roomName =>
      if String.eqb roomName "" then (m, [])
      else if negb (enabled m) || negb (roomService m) then (unregister m callId, [])
      else
        match reply with
        | Resolved => (unregister m callId, [DeleteRoomCall roomName])
        | Rejected _ => (unregister m callId, [DeleteRoomCall roomName])
        end
  end.

End Rooms.

(* ===================================================================== *)
(** ** bridge/livekitBridge.js: the echo bridge                           *)
(* ===================================================================== *)

Module Bridge.
Import Js.

(** What a socket message turns out to be after [JSON.parse].  [Invalid]
    covers text that does not parse and a [start] or [media] event without its
    nested object: the handler's [catch] swallows both.  [Other] is any other
    event name. *)
Inductive Message : Type :=
| Start (streamSid : option JSON)
| Media (payload : option JSON)
| Stop
| Other
| Invalid.

(** Messages sent back on the socket. *)
Inductive Sent : Type :=
| Connected
| Echo (streamSid : option JSON) (payload : option JSON).

(** The connection state is [ws._streamSid]. *)
Definition onMessage (streamSid : option JSON) (msg : Message)
    : option JSON * list Sent :=
  match msg with
  | Start sid => (sid, [Connected])
  | Media payload => (streamSid, [Echo streamSid payload])
  | Stop => (streamSid, [])
  | Other => (streamSid, [])
  | Invalid => (streamSid, [])
  end.

Fixpoint run (streamSid : option JSON) (msgs : list Message)
    : option JSON * list Sent :=
  match msgs with
  | [] => (streamSid, [])
  | msg :: rest =>
      let '(sid1, out1) := onMessage streamSid msg in
      let '(sid2, out2) := run sid1 rest in
      (sid2, out1 ++ out2)
  end.

(** The payloads of the media messages received, and of the echoes sent. *)
Fixpoint receivedPayloads (msgs : list Message) : list (option JSON) :=
  match msgs with
  | [] => []
  | Media payload :: rest => payload :: receivedPayloads rest
  | _ :: rest => receivedPayloads rest
  end.

Fixpoint echoedPayloads (out : list Sent) : list (option JSON) :=
  match out with
  | [] => []
  | Echo _ payload :: rest => payload :: echoedPayloads rest
  | Connected :: rest => echoedPayloads rest
  end.

(** The number of [start] messages among [msgs]. *)
Fixpoint starts (msgs : list Message) : nat :=
  match msgs with
  | [] => 0%nat
  | Start _ :: rest => S (starts rest)
  | _ :: rest => starts rest
  end.

Fixpoint connecteds (out : list Sent) : nat :=
  match out with
  | [] => 0%nat
  | Connected :: rest => S (connecteds rest)
  | Echo _ _ :: rest => connecteds rest
  end.

End Bridge.

(* ===================================================================== *)
(** ** twilio/webhook.js: the /voice route and the agent's life cycle     *)
(* ===================================================================== *)

Module Call.
Import Js.

(** [s.replace(/^prefix/, "")] for a literal [prefix]. *)
Fixpoint dropChars (n : nat) (s : string) : string :=
  match n, s with
  | O, _ => s
  | S n', String _ rest => dropChars n' rest
  | S _, EmptyString => EmptyString
  end.

Definition stripPrefix (prefix s : string) : string :=
  if startsWith s prefix then dropChars (String.length prefix) s else s.

(** [publicUrl.replace(/^https?:\/\//, "").replace(/^http:\/\//, "")]. *)
Definition hostOf (publicUrl : string) : string :=
  let once :=
    if startsWith publicUrl "https://" then stripPrefix "https://" publicUrl
    else stripPrefix "http://" publicUrl in
  stripPrefix "http://" once.

(** The stream URL the TwiML response announces. *)
Definition wssUrl (publicUrl : string) : string :=
  String.append "wss://" (String.append (hostOf publicUrl) "/bridge").

(** [await agent.connect()] against the room directory: [createRoom] returns
    on every path, so the agent takes its first branch. *)
Definition connectAgent (m : Rooms.Manager) (a : Agent.Agent)
    (reply : Rooms.ServiceReply) : Agent.Agent * Rooms.Manager * list Rooms.ServiceCall :=
  let '(name, m1, calls) := Rooms.createRoom m (Agent.callId a) reply in
  (Agent.connect a (Some name), m1, calls).

(** [await agent.disconnect()] with its closing [roomManager.deleteRoom]. *)
Definition disconnectAgent (m : Rooms.Manager) (a : Agent.Agent) (sink : Agent.Sink)
    (reply : Rooms.ServiceReply)
    : Agent.Agent * Agent.Sink * Rooms.Manager * list Rooms.ServiceCall :=
  let '(a1, sink1) := Agent.disconnect a sink in
  let '(m1, calls) := Rooms.deleteRoom m (Agent.callId a) reply in
  (a1, sink1, m1, calls).

(** The turns of a call applied in order. *)
Definition runTurns (a : Agent.Agent) (turns : list Agent.Turn) : Agent.Agent :=
  fold_left (fun a t => fst (Agent.processUtterance a t)) turns a.

(** The number of turns in which [generateResponse] answered. *)
Definition answered (turns : list Agent.Turn) : nat :=
  length (List.filter
            (fun t => match Agent.aiResponse t with Some _ => true | None => false end)
            turns).

End Call.

(* ===================================================================== *)
(** ** Observations on runs                                               *)
(* ===================================================================== *)

Module Observe.
Import Webhook.

(** The frames handed to [ws.send], and the utterances handed to
    [transcribePcm16], in order. *)
Fixpoint sentFrames (out : list Effect) : list Pcm :=
  match out with
  | [] => []
  | SendMedia _ frame :: rest => frame :: sentFrames rest
  | _ :: rest => sentFrames rest
  end.

Fixpoint transcribed (out : list Effect) : list Pcm :=
  match out with
  | [] => []
  | Transcribe samples :: rest => samples :: transcribed rest
  | _ :: rest => transcribed rest
  end.

Definition isStart (ev : Event) : bool :=
  match ev with Start _ => true | _ => false end.

(** Media messages at the given times, in order. *)
Definition mediaEvents (frames : list (Z * list Z)) : list (Z * Event) :=
  map (fun f => (f.1, Media f.2)) frames.

(** The payloads of the media events of a run, decoded. *)
Fixpoint decodedMedia (evs : list (Z * Event)) : list Pcm :=
  match evs with
  | [] => []
  | (_, Media mu) :: rest => Codec.mulawToPcm16 mu :: decodedMedia rest
  | _ :: rest => decodedMedia rest
  end.

(** The session after media frames were appended outside playback. *)
Definition afterFrames (s : Session) (frames : list (Z * list Z)) : Session :=
  match frames with
  | [] => s
  | first :: _ =>
      mkSession (pcmBuffer s ++ map (fun f => Codec.mulawToPcm16 f.2) frames)
                (List.last (map fst frames) 0)
                (if firstMediaAt s =? 0 then first.1 else firstMediaAt s)
                (processing s) (aiSpeaking s) (aiSpeakingTimeout s) (streamSid s)
                (pending s)
  end.

(** What a handler may issue: full frames, and utterances of at least
    MIN_AUDIO_SAMPLES. *)
Definition wellFormed (e : Effect) : Prop :=
  match e with
  | SendMedia _ frame => length frame = 160%nat
  | Transcribe samples => MIN_AUDIO_SAMPLES <= Z.of_nat (length samples)
  | _ => True
  end.

(** The flags of a reachable session: the playback timer is pending exactly
    during playback, a call of [processUtterance] is suspended exactly while
    [processing] is set, and never during playback. *)
Definition coherent (s : Session) : Prop :=
  (aiSpeaking s = true <-> aiSpeakingTimeout s <> None)
  /\ (processing s = true <-> pending s <> None)
  /\ ~ (aiSpeaking s = true /\ processing s = true).

(** A connection on which no [start] event has been handled. *)
Definition unstarted (s : Session) : Prop :=
  streamSid s = None /\ pending s = None /\ processing s = false
  /\ aiSpeaking s = false /\ aiSpeakingTimeout s = None.

(** The only intents and tool names the agent ever records. *)
Definition tame (a : Agent.Agent) : Prop :=
  Forall (fun i => i = "coverage_check" \/ i = "availability") (Agent.intents a)
  /\ Forall (fun c => Agent.tool c = "check_insurance_coverage"
                      \/ Agent.tool c = "get_provider_availability")
            (Agent.toolTrace a).

End Observe.

(* ===================================================================== *)
(** ** Further concrete inputs                                            *)
(* ===================================================================== *)

Module Sample.

(** Output schemas that ask for a property the tools never produce. *)
Definition strictSchema (tool : string) : Mcp.Schema :=
  Mcp.mkSchema (Js.JStr "idempotency_key") (Js.JStr "receipt_url").

(** A manager whose service client was constructed, with one room open. *)
Definition busyManager : Rooms.Manager :=
  Rooms.mkManager true true {[ "call-a" := "call-call-a" ]}.


(** Three caller frames before the stream has started. *)
Definition earlyFrames : list (Z * Webhook.Event) :=
  [(5, Webhook.Media Scenario.frame20ms); (25, Webhook.Tick);
   (45, Webhook.Media Scenario.frame20ms); (2000, Webhook.Tick);
   (2010, Webhook.SpeechTimeout); (2020, Webhook.Media Scenario.frame20ms)].

(** Four frames, 20 ms apart. *)
Definition fourFrames : list (Z * list Z) :=
  [(3620, Scenario.frame20ms); (3640, Scenario.frame20ms);
   (3660, Scenario.frame20ms); (3680, Scenario.frame20ms)].

(** The transcript "n" followed by e-acute (U+00E9): two characters, three
    bytes of UTF-8. *)
Definition shortTranscript : string :=
  String "n"%char
    (String (Ascii.ascii_of_nat 195) (String (Ascii.ascii_of_nat 169) EmptyString)).

(** A turn whose extraction carries a property named [__proto__]. *)
Definition turnProto : Agent.Turn :=
  Agent.mkTurn "My number is 408-555-1234." "2025-10-28T17:00:10.000Z"
    (Some [("__proto__", Js.JObj [("phone", Js.JStr "0")]);
           ("phone", Js.JStr "+14085551234"); ("payer", Js.JNull)])
    None None "2025-10-29T08:00:00.000Z" "2025-11-05T08:00:00.000Z"
    (Some "Thanks, I have your number.") "2025-10-28T17:00:12.000Z".

(** A turn whose extraction did not parse. *)
Definition turnGarbled : Agent.Turn :=
  Agent.mkTurn "mm hm" "2025-10-28T17:00:20.000Z" None None None
    "2025-10-29T08:00:00.000Z" "2025-11-05T08:00:00.000Z"
    (Some "Could you repeat that?") "2025-10-28T17:00:21.000Z".

End Sample.

(* ===================================================================== *)
(** * Properties                                                          *)
(* ===================================================================== *)

(** ** The transcoder *)

Section CodecFacts.
Import Codec.

Lemma byte_in_allBytes (b : Z) : 0 <= b < 256 -> In b allBytes.
Proof.
  intros Hb. unfold allBytes.
  rewrite <- (Z2Nat.id b) by lia.
  apply in_map, in_seq. lia.
Qed.

(** The two zero codes of the table: the bytes 0x7F and 0xFF decode to the same
    sample, so the decoder is not injective. *)
Lemma zero_codes_collide : mulawToPcm16Sample 0x7F = 0 /\ mulawToPcm16Sample 0xFF = 0.
Proof. split; reflexivity. Qed.

(** Whatever the encoder, it cannot give back both 0x7F and 0xFF. *)
Lemma no_encoder_inverts_decoder (enc : Z -> Z) :
  ~ (forall b, 0 <= b < 256 -> enc (mulawToPcm16Sample b) = b).
Proof.
  intros H.
  pose proof (H 0x7F ltac:(lia)) as H1.
  pose proof (H 0xFF ltac:(lia)) as H2.
  destruct zero_codes_collide as [E1 E2].
  rewrite E1 in H1. rewrite E2 in H2. lia.
Qed.

Lemma roundtrip_table :
  forallb (fun b => (b =? 0x7F) || (muLawEncodeSample (mulawToPcm16Sample b) =? b))
          allBytes = true.
Proof. vm_compute. reflexivity. Qed.

(** Decoded samples stay inside the 16-bit range, so the 32-bit and 16-bit
    wrap-arounds of the source never take effect. *)
Lemma decoded_sample_range (b : Z) :
  0 <= b < 256 -> -32124 <= mulawToPcm16Sample b <= 32124.
Proof.
  intros Hb.
  assert (Hall : forallb (fun b => (-32124 <=? mulawToPcm16Sample b)
                                   && (mulawToPcm16Sample b <=? 32124)) allBytes = true)
    by (vm_compute; reflexivity).
  rewrite forallb_forall in Hall.
  specialize (Hall b (byte_in_allBytes b Hb)).
  apply andb_true_iff in Hall. lia.
Qed.

(** C9 (as stated, refuted): decoding the byte 0x7F and encoding the result
    gives 0xFF, not 0x7F; the two bytes share the decoded sample 0. *)
Lemma roundtrip_fails_at_negative_zero :
  muLawEncode (mulawToPcm16 [0x7F]) = [0xFF]
  /\ muLawEncode (mulawToPcm16 [0x7F]) <> [0x7F]
  /\ mulawToPcm16 [0x7F] = mulawToPcm16 [0xFF].
Proof. split; [reflexivity | split; [discriminate | reflexivity]]. Qed.

Lemma roundtrip_sample (b : Z) :
  0 <= b < 256 -> b <> 0x7F -> muLawEncodeSample (mulawToPcm16Sample b) = b.
Proof.
  intros Hb Hne.
  pose proof roundtrip_table as Hall.
  rewrite forallb_forall in Hall.
  specialize (Hall b (byte_in_allBytes b Hb)).
  apply orb_true_iff in Hall. destruct Hall as [Hz | Hok]; lia.
Qed.

(** The same on whole buffers, as [mulawToPcm16] and [muLawEncode] are used. *)
Lemma buffer_roundtrip (bytes : list Z) :
  Forall (fun b => 0 <= b < 256 /\ b <> 0x7F) bytes ->
  muLawEncode (mulawToPcm16 bytes) = bytes.
Proof.
  unfold muLawEncode, mulawToPcm16.
  induction 1 as [| b rest [Hb Hne] _ IH]; simpl; [reflexivity |].
  f_equal; [apply roundtrip_sample; assumption | exact IH].
Qed.

(** C9 (amended): for each of the 255 wire bytes other than 0x7F, decoding and
    then encoding reproduces the byte; 0x7F comes back as 0xFF. *)
Theorem decode_then_encode_roundtrip (b : Z) :
  0 <= b < 256 -> b <> 0x7F ->
  muLawEncodeSample (mulawToPcm16Sample b) = b
  /\ muLawEncodeSample (mulawToPcm16Sample 0x7F) = 0xFF.
Proof.
  intros Hb Hne. split; [apply roundtrip_sample; assumption | reflexivity].
Qed.

(** The round trip at the byte 0x00. *)
Lemma decode_then_encode_roundtrip_witness :
  (0 <= 0x00 < 256 /\ 0x00 <> 0x7F)
  /\ muLawEncodeSample (mulawToPcm16Sample 0x00) = 0x00
  /\ muLawEncodeSample (mulawToPcm16Sample 0x7F) = 0xFF.
Proof.
  split; [lia |].
  apply (decode_then_encode_roundtrip 0x00); lia.
Defined.

End CodecFacts.

(** ** The turn-taking state machine *)

Section WebhookFacts.
Import Webhook.

Lemma initial_consistent (t0 : Z) : consistent (initial t0).
Proof. unfold consistent, initial; simpl. tauto. Qed.

Ltac flags :=
  unfold consistent in *; simpl in *;
  repeat match goal with
         | H : _ /\ _ |- _ => destruct H
         end;
  repeat split; intros; try congruence; try tauto; try (intuition congruence).

Lemma processUtterance_consistent (s : Session) :
  aiSpeaking s = false -> consistent s -> consistent (fst (processUtterance s)).
Proof.
  intros Ha H. unfold processUtterance.
  destruct (processing s) eqn:Hp; [exact H |].
  destruct (Z.of_nat (length (concatInt16 (pcmBuffer s))) <? MIN_AUDIO_SAMPLES);
    flags.
Qed.

Lemma onTick_consistent (s : Session) (now : Z) :
  consistent s -> consistent (fst (onTick s now)).
Proof.
  intros H. unfold onTick.
  destruct (negb (sidSet s)); [exact H |].
  destruct (aiSpeaking s) eqn:Ha; [exact H |].
  repeat match goal with
         | |- context [if ?c then _ else _] =>
             destruct c; try exact H;
             try (apply processUtterance_consistent; [exact Ha | exact H])
         end.
Qed.

Lemma onMedia_consistent (s : Session) (now : Z) (mu : list Z) :
  consistent s -> consistent (onMedia s now mu).
Proof.
  intros H. unfold onMedia.
  destruct (aiSpeaking s) eqn:Ha;
    [destruct (totalSamples (pcmBuffer s ++ [Codec.mulawToPcm16 mu]) >? BARGE_IN_THRESHOLD) |];
    flags.
Qed.

Lemma step_consistent (s : Session) (now : Z) (ev : Event) :
  consistent s -> consistent (fst (step s now ev)).
Proof.
  intros H. destruct ev; simpl; try exact H.
  - apply onMedia_consistent; exact H.
  - apply onTick_consistent; exact H.
  - destruct (pending s) as [[| |] |] eqn:Hp; try exact H.
    destruct (String.eqb text "" || Nat.ltb (Js.strLength text) 3); flags.
  - destruct (pending s) as [[| |] |] eqn:Hp; try exact H. flags.
  - destruct (pending s) as [[| |] |] eqn:Hp; try exact H.
    destruct result as [[int16 rate] |]; flags.
  - destruct (pending s) eqn:Hp; [| exact H]. flags.
  - destruct (aiSpeakingTimeout s) eqn:Ht; [| exact H]. flags.
Qed.

Lemma run_consistent (evs : list (Z * Event)) (s : Session) :
  consistent s -> consistent (fst (run s evs)).
Proof.
  revert s. induction evs as [| [now ev] rest IH]; intros s H; simpl; [exact H |].
  pose proof (step_consistent s now ev H) as H1.
  destruct (step s now ev) as [s1 out1]. simpl in H1.
  specialize (IH s1 H1).
  destruct (run s1 rest) as [s2 out2]. exact IH.
Qed.

Lemma reachable_consistent (s : Session) : reachable s -> consistent s.
Proof.
  intros (t0 & evs & <-). apply run_consistent, initial_consistent.
Qed.

Lemma run_app (evs1 evs2 : list (Z * Event)) (s : Session) :
  fst (run s (evs1 ++ evs2)) = fst (run (fst (run s evs1)) evs2).
Proof.
  revert s. induction evs1 as [| [now ev] rest IH]; intros s; simpl; [reflexivity |].
  destruct (step s now ev) as [s1 out1].
  specialize (IH s1).
  destruct (run s1 (rest ++ evs2)) as [s2 out2].
  destruct (run s1 rest) as [s3 out3]. simpl in *.
  rewrite <- IH. reflexivity.
Qed.

Lemma reachable_run (s : Session) (evs : list (Z * Event)) :
  reachable s -> reachable (fst (run s evs)).
Proof.
  intros (t0 & evs0 & <-). exists t0, (evs0 ++ evs). apply run_app.
Qed.

(** The sessions of the scenarios are the ends of their runs. *)
Lemma scenario_sessions_reachable :
  reachable Scenario.listeningSession
  /\ reachable Scenario.thinkingSession
  /\ reachable Scenario.awaitingAudio
  /\ reachable Scenario.speakingSession
  /\ reachable Scenario.speakingWithAudio
  /\ reachable Scenario.speakingAtThreshold
  /\ reachable Scenario.thinkingWithAudio.
Proof.
  assert (Hl : reachable Scenario.listeningSession)
    by (exists 0, Scenario.untilListening; vm_compute; reflexivity).
  assert (Ht : reachable Scenario.thinkingSession)
    by (exists 0, Scenario.untilThinking; vm_compute; reflexivity).
  assert (Ha : reachable Scenario.awaitingAudio)
    by (exists 0, Scenario.untilSynthesis; vm_compute; reflexivity).
  assert (Hs : reachable Scenario.speakingSession)
    by (exists 0, Scenario.untilSpeaking; vm_compute; reflexivity).
  repeat split; try assumption.
  - replace Scenario.speakingWithAudio
      with (fst (run Scenario.speakingSession [(3620, Media Scenario.frame20ms)]))
      by (vm_compute; reflexivity).
    apply reachable_run, Hs.
  - replace Scenario.speakingAtThreshold
      with (fst (run Scenario.speakingSession
                   (Scenario.burst 3620 20 Scenario.frame20ms)))
      by (vm_compute; reflexivity).
    apply reachable_run, Hs.
  - replace Scenario.thinkingWithAudio
      with (fst (run Scenario.thinkingSession [(1420, Media Scenario.frame20ms)]))
      by (vm_compute; reflexivity).
    apply reachable_run, Ht.
Qed.

End WebhookFacts.

Section BargeIn.
Import Webhook.

(** With no suspended [processUtterance], a handler either issues nothing and
    leaves none suspended, or hands a new utterance to recognition. *)
Lemma step_without_pending (s : Session) (now : Z) (ev : Event) :
  pending s = None ->
  (snd (step s now ev) = [] /\ pending (fst (step s now ev)) = None)
  \/ exists samples, snd (step s now ev) = [Transcribe samples].
Proof.
  intros Hp. destruct ev; simpl; try rewrite Hp; simpl; auto.
  - left. split; [reflexivity |]. unfold onMedia.
    repeat match goal with
           | |- context [if ?c then _ else _] => destruct c
           end; simpl; exact Hp.
  - unfold onTick, processUtterance.
    repeat match goal with
           | |- context [if ?c then _ else _] => destruct c
           end; simpl; eauto.
  - destruct (aiSpeakingTimeout s); simpl; auto.
Qed.

Lemma quiet_after_no_pending (evs : list (Z * Event)) (s : Session) :
  pending s = None -> quietUntilNextUtterance (snd (run s evs)) = true.
Proof.
  revert s. induction evs as [| [now ev] rest IH]; intros s Hp; simpl; [reflexivity |].
  pose proof (step_without_pending s now ev Hp) as Hstep.
  destruct (step s now ev) as [s1 out1]. simpl in Hstep.
  specialize (IH s1).
  destruct (run s1 rest) as [s2 out2]. simpl in *.
  destruct Hstep as [[-> Hp1] | [samples ->]]; simpl; auto.
Qed.

(** C1: in a reachable session that is speaking, the media frame that brings
    the audio buffered during playback above BARGE_IN_THRESHOLD sends nothing,
    cancels the playback timer, leaves the session listening with the buffered
    frames (the triggering one last) as its utterance buffer, and from then on
    no media frame goes out before a new utterance has been handed to
    recognition, whatever events follow. *)
Theorem barge_in_stops_playback (s : Session) (now : Z) (mu : list Z)
    (evs : list (Z * Event)) :
  reachable s ->
  turnState s = Speaking ->
  totalSamples (pcmBuffer s ++ [Codec.mulawToPcm16 mu]) > BARGE_IN_THRESHOLD ->
  let s' := fst (step s now (Media mu)) in
  snd (step s now (Media mu)) = []
  /\ turnState s' = Listening
  /\ aiSpeakingTimeout s' = None
  /\ pcmBuffer s' = pcmBuffer s ++ [Codec.mulawToPcm16 mu]
  /\ firstMediaAt s' = now /\ lastMediaAt s' = now
  /\ quietUntilNextUtterance (snd (run s' evs)) = true.
Proof.
  intros Hreach Hsp Hover.
  apply reachable_consistent in Hreach.
  destruct Hreach as (Hpend & Hproc & _).
  assert (Ha : aiSpeaking s = true).
  { unfold turnState in Hsp. destruct (aiSpeaking s); [reflexivity |].
    destruct (processing s); discriminate. }
  specialize (Hproc Ha).
  assert (Hnone : pending s = None) by (apply Hpend; exact Hproc).
  simpl. unfold onMedia. rewrite Ha.
  apply Z.gtb_gt in Hover. rewrite Hover. simpl.
  unfold turnState; simpl. rewrite Hproc.
  repeat split.
  apply quiet_after_no_pending. exact Hnone.
Qed.

(** A call that reaches playback; twenty caller frames are buffered and the
    twenty-first arrives. *)
Lemma barge_in_stops_playback_witness :
  let s := Scenario.speakingAtThreshold in
  let mu := Scenario.frame20ms in
  let s' := fst (step s 4020 (Media mu)) in
  (reachable s /\ turnState s = Speaking
   /\ totalSamples (pcmBuffer s ++ [Codec.mulawToPcm16 mu]) > BARGE_IN_THRESHOLD)
  /\ snd (step s 4020 (Media mu)) = []
  /\ turnState s' = Listening
  /\ aiSpeakingTimeout s' = None
  /\ pcmBuffer s' = pcmBuffer s ++ [Codec.mulawToPcm16 mu]
  /\ firstMediaAt s' = 4020 /\ lastMediaAt s' = 4020
  /\ quietUntilNextUtterance
       (snd (run s' [(4040, Media mu); (4050, Tick); (4400, SpeechTimeout)])) = true.
Proof.
  assert (Hr : reachable Scenario.speakingAtThreshold)
    by apply scenario_sessions_reachable.
  assert (Hs : turnState Scenario.speakingAtThreshold = Speaking)
    by (vm_compute; reflexivity).
  assert (Ht : totalSamples (pcmBuffer Scenario.speakingAtThreshold
                             ++ [Codec.mulawToPcm16 Scenario.frame20ms])
               > BARGE_IN_THRESHOLD)
    by (vm_compute; reflexivity).
  split; [split; [exact Hr | split; [exact Hs | exact Ht]] |].
  exact (barge_in_stops_playback Scenario.speakingAtThreshold 4020 Scenario.frame20ms
           [(4040, Media Scenario.frame20ms); (4050, Tick); (4400, SpeechTimeout)]
           Hr Hs Ht).
Defined.

End BargeIn.

Section TurnBoundary.
Import Webhook.

Lemma listening_flags (s : Session) :
  turnState s = Listening -> aiSpeaking s = false /\ processing s = false.
Proof.
  unfold turnState. destruct (aiSpeaking s), (processing s); intros H;
    try discriminate; split; reflexivity.
Qed.

Lemma thinking_flags (s : Session) :
  turnState s = Thinking -> aiSpeaking s = false /\ processing s = true.
Proof.
  unfold turnState. destruct (aiSpeaking s), (processing s); intros H;
    try discriminate; split; reflexivity.
Qed.

Lemma classic_ready (s : Session) :
  (sidSet s = true /\ turnState s = Listening)
  \/ ~ (sidSet s = true /\ turnState s = Listening).
Proof.
  destruct (sidSet s); [| right; intros [H _]; discriminate].
  unfold turnState. destruct (aiSpeaking s), (processing s);
    try (right; intros [_ H]; discriminate).
  left. split; reflexivity.
Qed.

Lemma nonempty_length {A : Type} (l : list A) :
  l <> [] -> Nat.eqb (length l) 0 = false.
Proof. destruct l; [congruence | reflexivity]. Qed.

(** The checker's decision, once it is past its guards. *)
Lemma onTick_listening (s : Session) (now : Z) :
  pcmBuffer s <> [] -> sidSet s = true -> aiSpeaking s = false ->
  onTick s now =
  if (now - lastMediaAt s >? SILENCE_MS)
     || (negb (firstMediaAt s =? 0) && (now - firstMediaAt s >? MAX_UTTERANCE_MS))
  then processUtterance s else (s, []).
Proof.
  intros Hbuf Hsid Ha. unfold onTick.
  rewrite Hsid, Ha, (nonempty_length _ Hbuf). simpl.
  destruct (now - lastMediaAt s >? SILENCE_MS); simpl; [reflexivity |].
  destruct (firstMediaAt s =? 0); simpl; reflexivity.
Qed.

(** C2 (as stated, refuted): two reachable sessions hold buffered audio that is
    more than SILENCE_MS old, one while the reply plays and one while the
    pipeline works; the periodic check leaves both untouched. *)
Lemma silence_check_is_gated :
  (turnState Scenario.speakingWithAudio = Speaking
   /\ pcmBuffer Scenario.speakingWithAudio <> []
   /\ 4200 - lastMediaAt Scenario.speakingWithAudio > SILENCE_MS
   /\ onTick Scenario.speakingWithAudio 4200 = (Scenario.speakingWithAudio, []))
  /\ (turnState Scenario.thinkingWithAudio = Thinking
      /\ pcmBuffer Scenario.thinkingWithAudio <> []
      /\ 2300 - lastMediaAt Scenario.thinkingWithAudio > SILENCE_MS
      /\ onTick Scenario.thinkingWithAudio 2300 = (Scenario.thinkingWithAudio, [])).
Proof.
  split; (split; [vm_compute; reflexivity |]);
    (split; [vm_compute; discriminate |]);
    (split; [vm_compute; reflexivity |]); vm_compute; reflexivity.
Qed.

(** Outside the listening state, or before the stream has started, the
    checker changes nothing and issues nothing. *)
Lemma onTick_not_ready (s : Session) (now : Z) :
  ~ (sidSet s = true /\ turnState s = Listening) -> onTick s now = (s, []).
Proof.
  intros Hnot. unfold onTick.
  destruct (sidSet s) eqn:Hsid; simpl; [| reflexivity].
  destruct (aiSpeaking s) eqn:Ha; [reflexivity |].
  assert (Hp : processing s = true).
  { destruct (processing s) eqn:Hp; [reflexivity |].
    exfalso. apply Hnot. unfold turnState. rewrite Ha, Hp. split; reflexivity. }
  unfold processUtterance. rewrite Hp.
  repeat match goal with
         | |- context [if ?c then _ else _] => destruct c
         end; reflexivity.
Qed.

(** C2 (amended): for every session with a non-empty buffer, the periodic check
    consumes the buffer exactly when the session is listening (stream started,
    no reply playing, no utterance in the pipeline) and either the silence
    exceeds SILENCE_MS or the recorded utterance start is more than
    MAX_UTTERANCE_MS old; otherwise it changes nothing.  Below
    MIN_AUDIO_SAMPLES the consumed buffer is dropped, nothing reaches
    recognition and the session keeps listening; from MIN_AUDIO_SAMPLES on, the
    samples go to recognition and the session is thinking. *)
Theorem silence_check_finalizes_iff (s : Session) (now : Z) :
  pcmBuffer s <> [] ->
  let ready := sidSet s = true /\ turnState s = Listening in
  let due := now - lastMediaAt s > SILENCE_MS
             \/ (firstMediaAt s <> 0 /\ now - firstMediaAt s > MAX_UTTERANCE_MS) in
  let samples := concatInt16 (pcmBuffer s) in
  let s' := fst (onTick s now) in
  (pcmBuffer s' = [] <-> ready /\ due)
  /\ (~ (ready /\ due) -> onTick s now = (s, []))
  /\ (ready -> due -> Z.of_nat (length samples) < MIN_AUDIO_SAMPLES ->
      snd (onTick s now) = [] /\ pending s' = None /\ turnState s' = Listening)
  /\ (ready -> due -> MIN_AUDIO_SAMPLES <= Z.of_nat (length samples) ->
      snd (onTick s now) = [Transcribe samples]
      /\ pending s' = Some (AwaitTranscript samples) /\ turnState s' = Thinking).
Proof.
  intros Hbuf ready due samples s'.
  destruct (classic_ready s) as [Hready | Hnot].
  - destruct Hready as [Hsid Hst].
    destruct (listening_flags s Hst) as [Ha Hp].
    assert (Hdue : due <->
              (now - lastMediaAt s >? SILENCE_MS)
              || (negb (firstMediaAt s =? 0)
                  && (now - firstMediaAt s >? MAX_UTTERANCE_MS))
              = true).
    { unfold due. rewrite orb_true_iff, andb_true_iff, negb_true_iff, Z.eqb_neq.
      rewrite !Z.gtb_gt. tauto. }
    subst s'. rewrite (onTick_listening s now Hbuf Hsid Ha).
    destruct ((now - lastMediaAt s >? SILENCE_MS)
              || (negb (firstMediaAt s =? 0)
                  && (now - firstMediaAt s >? MAX_UTTERANCE_MS)))
      eqn:Hfire.
    + assert (Hd : due) by (apply Hdue; reflexivity).
      unfold processUtterance. rewrite Hp. fold samples.
      destruct (Z.of_nat (length samples) <? MIN_AUDIO_SAMPLES) eqn:Hshort.
      * apply Z.ltb_lt in Hshort. unfold turnState. simpl. rewrite Ha.
        unfold ready. repeat split; auto; try tauto; intros; lia.
      * apply Z.ltb_ge in Hshort. unfold turnState. simpl. rewrite Ha.
        unfold ready. repeat split; auto; try tauto; intros; lia.
    + assert (Hd : ~ due) by (rewrite Hdue; discriminate).
      simpl. repeat split; try tauto; intros; try congruence.
  - subst s'. rewrite (onTick_not_ready s now Hnot). simpl.
    fold ready in Hnot. repeat split; try tauto; intros; congruence.
Qed.

(** Half a second of buffered audio, checked 900 ms after its last frame. *)
Lemma silence_check_finalizes_iff_witness :
  let s := Scenario.listeningSession in
  let s' := fst (onTick s 1400) in
  pcmBuffer s <> []
  /\ (pcmBuffer s' = [] <->
      (sidSet s = true /\ turnState s = Listening)
      /\ (1400 - lastMediaAt s > SILENCE_MS
          \/ (firstMediaAt s <> 0 /\ 1400 - firstMediaAt s > MAX_UTTERANCE_MS)))
  /\ snd (onTick s 1400) = [Transcribe (concatInt16 (pcmBuffer s))]
  /\ turnState s' = Thinking.
Proof.
  assert (Hb : pcmBuffer Scenario.listeningSession <> [])
    by (vm_compute; discriminate).
  split; [exact Hb |].
  destruct (silence_check_finalizes_iff Scenario.listeningSession 1400 Hb)
    as (Hiff & _ & _ & Hlong).
  split; [exact Hiff |].
  assert (Hready : sidSet Scenario.listeningSession = true
                   /\ turnState Scenario.listeningSession = Listening)
    by (split; vm_compute; reflexivity).
  assert (Hdue : 1400 - lastMediaAt Scenario.listeningSession > SILENCE_MS
                 \/ (firstMediaAt Scenario.listeningSession <> 0
                     /\ 1400 - firstMediaAt Scenario.listeningSession
                        > MAX_UTTERANCE_MS))
    by (left; vm_compute; reflexivity).
  assert (Hlen : MIN_AUDIO_SAMPLES
                 <= Z.of_nat (length (concatInt16 (pcmBuffer Scenario.listeningSession))))
    by (vm_compute; discriminate).
  destruct (Hlong Hready Hdue Hlen) as (Hout & _ & Hth).
  split; [exact Hout | exact Hth].
Defined.

End TurnBoundary.

Section InboundAudio.
Import Webhook.

(** Outside playback the media handler always appends. *)
Lemma onMedia_not_speaking (s : Session) (now : Z) (mu : list Z) :
  aiSpeaking s = false ->
  onMedia s now mu =
  mkSession (pcmBuffer s ++ [Codec.mulawToPcm16 mu]) now
            (if firstMediaAt s =? 0 then now else firstMediaAt s)
            (processing s) false (aiSpeakingTimeout s) (streamSid s) (pending s).
Proof. intros Ha. unfold onMedia. rewrite Ha. reflexivity. Qed.

(** C5 (as stated, refuted): a reachable session is thinking, a media frame
    arrives, and the frame is in the buffer afterwards. *)
Lemma thinking_accepts_media :
  turnState Scenario.thinkingSession = Thinking
  /\ pcmBuffer Scenario.thinkingSession = []
  /\ pcmBuffer (fst (step Scenario.thinkingSession 1420 (Media [0xFF]))) = [[0]]
  /\ pcmBuffer (fst (step Scenario.thinkingSession 1420 (Media [0xFF])))
     <> pcmBuffer Scenario.thinkingSession.
Proof.
  split; [vm_compute; reflexivity |].
  split; [vm_compute; reflexivity |].
  split; [vm_compute; reflexivity |].
  vm_compute. discriminate.
Qed.

(** C5 (amended): while a session is thinking, an inbound media frame sends
    nothing and is appended to the buffer, which is separate from the samples
    already handed to the pipeline; the session stays thinking.  When the
    synthesized reply arrives and playback starts, the buffer is emptied. *)
Theorem thinking_buffers_until_playback (s : Session) (now : Z) (mu : list Z) :
  turnState s = Thinking ->
  let s' := fst (step s now (Media mu)) in
  snd (step s now (Media mu)) = []
  /\ pcmBuffer s' = pcmBuffer s ++ [Codec.mulawToPcm16 mu]
  /\ lastMediaAt s' = now
  /\ pending s' = pending s
  /\ turnState s' = Thinking
  /\ forall reply t int16 sampleRate accept,
       pending s' = Some (AwaitAudio reply) ->
       let s'' := fst (step s' t (Audio (Some (int16, sampleRate)) accept)) in
       pcmBuffer s'' = [] /\ turnState s'' = Speaking.
Proof.
  intros Hst. destruct (thinking_flags s Hst) as [Ha Hp].
  simpl. rewrite (onMedia_not_speaking s now mu Ha).
  unfold turnState. simpl. rewrite Hp.
  repeat split; intros; rewrite H; reflexivity.
Qed.

(** A frame arrives while the reply is being synthesized; playback then
    starts. *)
Lemma thinking_buffers_until_playback_witness :
  let s := Scenario.awaitingAudio in
  let s' := fst (step s 3200 (Media Scenario.frame20ms)) in
  let s'' := fst (step s' 3600 (Audio (Some (Scenario.replyAudio, 24000)) 1000%nat)) in
  turnState s = Thinking
  /\ pcmBuffer s' = pcmBuffer s ++ [Codec.mulawToPcm16 Scenario.frame20ms]
  /\ turnState s' = Thinking
  /\ pcmBuffer s'' = [] /\ turnState s'' = Speaking.
Proof.
  assert (Ht : turnState Scenario.awaitingAudio = Thinking)
    by (vm_compute; reflexivity).
  split; [exact Ht |].
  destruct (thinking_buffers_until_playback Scenario.awaitingAudio 3200
              Scenario.frame20ms Ht) as (_ & Hbuf & _ & Hpend & Hth & Hplay).
  split; [exact Hbuf |]. split; [exact Hth |].
  apply (Hplay "Hi." 3600 Scenario.replyAudio 24000 1000%nat).
  rewrite Hpend. vm_compute. reflexivity.
Defined.

(** The playback timer touches the two speech fields only. *)
Lemma speech_timeout_keeps_buffer (s : Session) (now : Z) :
  pcmBuffer (fst (step s now SpeechTimeout)) = pcmBuffer s.
Proof. simpl. destruct (aiSpeakingTimeout s); reflexivity. Qed.

(** C6 (the code departs from it): one caller frame arrives during playback,
    below the barge-in threshold; the playback timer fires; the session is
    listening and the frame is still the buffer; the caller's next utterance
    reaches recognition with the 160 samples of that frame in front of its own
    4000. *)
Theorem playback_audio_survives_natural_end :
  let s := fst (run Scenario.speakingSession Scenario.naturalEnd) in
  reachable s
  /\ turnState s = Listening
  /\ pcmBuffer s = [Codec.mulawToPcm16 Scenario.frame20ms]
  /\ snd (run s Scenario.nextUtterance)
     = [Transcribe (Codec.mulawToPcm16 Scenario.frame20ms
                    ++ Codec.mulawToPcm16 (repeat 0xFF 4000))].
Proof.
  split; [apply reachable_run, scenario_sessions_reachable |].
  split; [vm_compute; reflexivity |].
  split; vm_compute; reflexivity.
Qed.

End InboundAudio.

(** ** Strings *)

Section StringFacts.
Import Js.

Lemma startsWith_spec (hay needle : string) :
  startsWith hay needle = true <-> exists post, hay = String.append needle post.
Proof.
  revert hay. induction needle as [| a needle IH]; intros hay; simpl.
  - split; [intros _; exists hay; reflexivity | reflexivity].
  - destruct hay as [| b hay].
    + split; [discriminate | intros [post H]; discriminate].
    + rewrite andb_true_iff, Ascii.eqb_eq, IH. split.
      * intros [-> [post ->]]. exists post. reflexivity.
      * intros [post H]. injection H as -> ->. split; [reflexivity | eauto].
Qed.

Lemma includes_spec (hay needle : string) :
  includes hay needle = true <-> occursIn needle hay.
Proof.
  unfold occursIn. induction hay as [| c hay IH].
  - cbn [includes]. rewrite orb_false_r, startsWith_spec. split.
    + intros [post H]. exists EmptyString, post. exact H.
    + intros (pre & post & H). destruct pre; [exists post; exact H | discriminate].
  - cbn [includes]. rewrite orb_true_iff, startsWith_spec, IH. split.
    + intros [[post H] | (pre & post & H)].
      * exists EmptyString, post. exact H.
      * exists (String c pre), post. simpl. rewrite H. reflexivity.
    + intros (pre & post & H). destruct pre as [| c' pre].
      * left. exists post. exact H.
      * right. exists pre, post. cbn [String.append] in H.
        injection H as _ H. exact H.
Qed.

End StringFacts.

(** ** The tool endpoints *)

Section ToolFacts.
Import Js Mcp.

Variable validate : JSON -> JSON -> Validation.
Variable schemaOf : string -> Schema.
Variable random36 : nat -> string.
Variable slotTimes : option JSON -> nat -> option (string * string).

Lemma mapGet_mapSet_same (key : option JSON) (v : JSON)
    (store : list (option JSON * JSON)) :
  sameValueZero key key = true -> mapGet key (mapSet key v store) = Some v.
Proof.
  intros Hrefl. induction store as [| [k v'] rest IH]; simpl.
  - rewrite Hrefl. reflexivity.
  - destruct (sameValueZero key k) eqn:Hk; simpl; rewrite Hk; [reflexivity | exact IH].
Qed.

Lemma mapGet_mapSet_keep (key k : option JSON) (v w : JSON)
    (store : list (option JSON * JSON)) :
  mapGet key store = None -> mapGet k store = Some w ->
  mapGet k (mapSet key v store) = Some w.
Proof.
  induction store as [| [k0 v0] rest IH]; simpl; [discriminate |].
  destruct (sameValueZero key k0) eqn:Hkey; [discriminate |].
  intros Hnone Hget. simpl.
  destruct (sameValueZero k k0); [exact Hget | apply IH; assumption].
Qed.

(** No tool removes or changes a stored booking. *)
Lemma simulateTool_keeps_bookings (name : string) (body : JSON) (st st' : Server)
    (r : JSON) (k : option JSON) (w : JSON) :
  simulateTool random36 slotTimes name body st = Some (r, st') ->
  mapGet k (bookingStore st) = Some w -> mapGet k (bookingStore st') = Some w.
Proof.
  unfold simulateTool. intros Hsim Hget.
  repeat match type of Hsim with
         | (if ?c then _ else _) = _ => destruct c
         | match ?x with _ => _ end = _ => destruct x eqn:?
         end;
    try discriminate; inversion Hsim; subst; simpl; try exact Hget.
  apply mapGet_mapSet_keep; assumption.
Qed.

Lemma post_keeps_bookings (path : string) (body : JSON) (st : Server)
    (k : option JSON) (w : JSON) :
  mapGet k (bookingStore st) = Some w ->
  mapGet k (bookingStore (snd (post validate schemaOf random36 slotTimes path body st)))
  = Some w.
Proof.
  intros Hget. unfold post.
  destruct (route path) as [tool |]; [| exact Hget].
  unfold handle.
  destruct (negb (ok (validate (input (schemaOf tool)) body))); [exact Hget |].
  destruct (simulateTool random36 slotTimes tool body st) as [[r st1] |] eqn:Hsim;
    [| exact Hget].
  pose proof (simulateTool_keeps_bookings _ _ _ _ _ _ _ Hsim Hget) as Hkeep.
  destruct (negb (ok (validate (output (schemaOf tool)) r))); exact Hkeep.
Qed.

Lemma serve_keeps_bookings (reqs : list (string * JSON)) (st : Server)
    (k : option JSON) (w : JSON) :
  mapGet k (bookingStore st) = Some w ->
  mapGet k (bookingStore (serve validate schemaOf random36 slotTimes st reqs)) = Some w.
Proof.
  revert st. induction reqs as [| [path body] rest IH]; intros st Hget; simpl;
    [exact Hget |].
  apply IH, post_keeps_bookings, Hget.
Qed.





Lemma route_registered (tool : string) : In tool tools -> route tool = Some tool.
Proof. simpl. intros [<- | [<- | [<- | [<- | []]]]]; reflexivity. Qed.

(** C7: whenever the request body fails the tool's input schema, the endpoint
    answers 400 with [{ok:false, errors}] and the server state (booking store,
    random draws, log) is the one before the request. *)
Theorem invalid_input_is_rejected (tool : string) (body : JSON) (st : Server) :
  In tool tools ->
  ok (validate (input (schemaOf tool)) body) = false ->
  post validate schemaOf random36 slotTimes tool body st
  = (Json 400 (JObj [("ok", JBool false);
                     ("errors", errors (validate (input (schemaOf tool)) body))]),
     st).
Proof.
  intros Htool Hbad. unfold post.
  rewrite (route_registered tool Htool). unfold handle. rewrite Hbad. reflexivity.
Qed.

(** C10: for an input whose payer is a string, [checkInsuranceCoverage] answers
    [covered] exactly when the lower-cased payer contains "delta", "blue" or
    "dental", with a copay estimate of 25 when covered and 0 otherwise; the
    server state is unchanged. *)
Theorem coverage_rule (body : JSON) (payer : string) (st : Server) :
  prop "payer" body = Some (JStr payer) ->
  exists covered notes,
    simulateTool random36 slotTimes "checkInsuranceCoverage" body st
    = Some (JObj [("covered", JBool covered);
                  ("copay_estimate", JNum (if covered then 25 else 0));
                  ("notes", JStr notes)], st)
    /\ (covered = true <->
        occursIn "delta" (toLowerCase payer)
        \/ occursIn "blue" (toLowerCase payer)
        \/ occursIn "dental" (toLowerCase payer)).
Proof using random36 slotTimes.
  intros Hpayer. unfold simulateTool. simpl. rewrite Hpayer.
  eexists. eexists. split; [reflexivity |].
  rewrite <- orb_assoc, !orb_true_iff, !includes_spec. reflexivity.
Qed.

End ToolFacts.

Section ToolWitnesses.
Import Js Mcp.



(** A booking request without its idempotency key. *)
Lemma invalid_input_is_rejected_witness :
  (In "bookAppointment" tools
   /\ ok (Scenario.requireField (input (Scenario.schemaFor "bookAppointment"))
            Scenario.incompleteBody) = false)
  /\ post Scenario.requireField Scenario.schemaFor Scenario.fixedRandom
       Scenario.noCalendar "bookAppointment" Scenario.incompleteBody emptyServer
     = (Json 400 (JObj [("ok", JBool false);
                        ("errors", JArr [JStr "idempotency_key"])]),
        emptyServer).
Proof.
  assert (Hin : In "bookAppointment" tools) by (simpl; tauto).
  assert (Hbad : ok (Scenario.requireField (input (Scenario.schemaFor "bookAppointment"))
                       Scenario.incompleteBody) = false) by reflexivity.
  split; [split; [exact Hin | exact Hbad] |].
  exact (invalid_input_is_rejected Scenario.requireField Scenario.schemaFor
           Scenario.fixedRandom Scenario.noCalendar "bookAppointment"
           Scenario.incompleteBody emptyServer Hin Hbad).
Defined.

(** The payer "Delta Dental". *)
Lemma coverage_rule_witness :
  prop "payer" Scenario.coverageBody = Some (JStr "Delta Dental")
  /\ exists covered notes,
       simulateTool Scenario.fixedRandom Scenario.noCalendar "checkInsuranceCoverage"
         Scenario.coverageBody emptyServer
       = Some (JObj [("covered", JBool covered);
                     ("copay_estimate", JNum (if covered then 25 else 0));
                     ("notes", JStr notes)], emptyServer)
       /\ (covered = true <->
           occursIn "delta" (toLowerCase "Delta Dental")
           \/ occursIn "blue" (toLowerCase "Delta Dental")
           \/ occursIn "dental" (toLowerCase "Delta Dental")).
Proof.
  split; [reflexivity |].
  apply (coverage_rule Scenario.fixedRandom Scenario.noCalendar Scenario.coverageBody
           "Delta Dental" emptyServer).
  reflexivity.
Defined.

(** The rule at work: a covered payer, and one outside the network. *)
Example coverage_delta :
  simulateTool Scenario.fixedRandom Scenario.noCalendar "checkInsuranceCoverage"
    Scenario.coverageBody emptyServer
  = Some (JObj [("covered", JBool true); ("copay_estimate", JNum 25);
                ("notes", JStr "Covered under preventive care")], emptyServer).
Proof. reflexivity. Qed.

Example coverage_united :
  simulateTool Scenario.fixedRandom Scenario.noCalendar "checkInsuranceCoverage"
    (JObj [("payer", JStr "UnitedHealthcare"); ("plan", JStr "HMO")]) emptyServer
  = Some (JObj [("covered", JBool false); ("copay_estimate", JNum 0);
                ("notes", JStr "Not in network - cash pay available")], emptyServer).
Proof. reflexivity. Qed.

(** Two bookings with one key, a text message in between. *)
Example booking_twice :
  let st1 := serve Scenario.requireField Scenario.schemaFor Scenario.fixedRandom
               Scenario.noCalendar emptyServer
               [("bookAppointment", Scenario.bookingBody); ("sendSms", JObj [])] in
  post Scenario.requireField Scenario.schemaFor Scenario.fixedRandom
    Scenario.noCalendar "bookAppointment" Scenario.bookingBody st1
  = (Json 200 (JObj [("confirmation_id", JStr "CONF-4FZYO82M");
                     ("status", JStr "booked")]),
     mkServer (bookingStore st1) 2
              (log st1 ++ [mkLogEntry "bookAppointment" Scenario.bookingBody
                             (JObj [("confirmation_id", JStr "CONF-4FZYO82M");
                                    ("status", JStr "booked")])]))
  /\ length (bookingStore st1) = 1%nat.
Proof. split; reflexivity. Qed.

End ToolWitnesses.

(** ** The conversation agent *)

Section AgentFacts.
Import Js Agent.

Lemma assoc_snoc (k k0 : string) (v0 : JSON) (l : list (string * JSON)) :
  assoc k (l ++ [(k0, v0)])
  = match assoc k l with
    | Some v => Some v
    | None => if String.eqb k k0 then Some v0 else None
    end.
Proof.
  induction l as [| [k1 v1] l IH]; simpl; [reflexivity |].
  destruct (String.eqb k k1); [reflexivity | exact IH].
Qed.

(** A property other than [__proto__] is written to the target as its own
    property, whatever the prototype chain. *)
Lemma setProperty_lookup (target : gmap string JSON * Proto) (k0 : string) (v0 : JSON)
    (k : string) :
  k <> "__proto__" ->
  (setProperty target k0 v0).1 !! k
  = if String.eqb k k0 then Some v0 else target.1 !! k.
Proof.
  intros Hk. unfold setProperty.
  destruct (String.eqb_spec k k0) as [<- | Hkk].
  - destruct (String.eqb_spec k "__proto__") as [Heq | _]; [contradiction |].
    cbn. apply lookup_insert_eq.
  - destruct (String.eqb k0 "__proto__" && inheritsSetter target.1 target.2).
    + destruct v0; reflexivity.
    + cbn. apply lookup_insert_ne. congruence.
Qed.

(** [Object.assign] writes every property of the source, whatever its value:
    the last property named [k] decides the slot, and an absent one leaves it. *)
Lemma objectAssign_lookup (source : list (string * JSON))
    (target : gmap string JSON * Proto) (k : string) :
  k <> "__proto__" ->
  (objectAssign target source).1 !! k
  = match assoc k (rev source) with
    | Some v => Some v
    | None => target.1 !! k
    end.
Proof.
  intros Hk. revert target.
  induction source as [| [k0 v0] rest IH]; intros target; simpl.
  - reflexivity.
  - unfold objectAssign in *. simpl. rewrite IH, assoc_snoc.
    destruct (assoc k (rev rest)); [reflexivity |].
    rewrite setProperty_lookup by exact Hk.
    destruct (String.eqb k k0); reflexivity.
Qed.

Lemma processUtterance_slots (a : Agent) (t : Turn) :
  slots (fst (processUtterance a t))
  = match extraction t with
    | Some props => (objectAssign (slots a, slotsProto a) props).1
    | None => slots a
    end.
Proof.
  unfold processUtterance.
  destruct (aiResponse t); cbn [fst pushTranscript slots];
    unfold extractSlotsAndCallTools, callGetAvailability, callCheckInsurance,
      pushTranscript; cbn [extraction slots slotsProto];
    repeat match goal with
           | |- context [if ?c then _ else _] => destruct c
           | |- context [match ?x with _ => _ end] => destruct x
           end; reflexivity.
Qed.

(** A turn whose extraction ends a slot with [null] leaves [null] in it,
    whatever it held. *)
Lemma null_extraction_overwrites (a : Agent) (t : Turn) (k : string)
    (others : list (string * JSON)) :
  k <> "__proto__" ->
  extraction t = Some (others ++ [(k, JNull)]) ->
  slots (fst (processUtterance a t)) !! k = Some JNull.
Proof.
  intros Hk Hex.
  rewrite processUtterance_slots, Hex, objectAssign_lookup, rev_app_distr by exact Hk.
  simpl. rewrite String.eqb_refl. reflexivity.
Qed.

(** C4 (the code departs from it): the first turn fills [patient_first] with
    "Maya"; the second turn's extraction reports [patient_first] as [null]
    while delivering the phone number; afterwards the slot holds [null]. *)
Theorem later_null_erases_slot :
  let a1 := fst (processUtterance (create "call-17") Scenario.turnName) in
  let a2 := fst (processUtterance a1 Scenario.turnPhone) in
  slots a1 !! "patient_first" = Some (JStr "Maya")
  /\ slots a2 !! "patient_first" = Some JNull
  /\ slots a2 !! "phone" = Some (JStr "+14085551234").
Proof.
  cbv zeta.
  rewrite !(processUtterance_slots _ Scenario.turnPhone).
  rewrite !(processUtterance_slots _ Scenario.turnName).
  cbn [Scenario.turnPhone Scenario.turnName extraction].
  rewrite !objectAssign_lookup by discriminate. cbn [fst].
  rewrite !objectAssign_lookup by discriminate. simpl.
  repeat split; reflexivity.
Qed.

Lemma processUtterance_connected (a : Agent) (t : Turn) :
  connected (fst (processUtterance a t)) = connected a.
Proof.
  unfold processUtterance, extractSlotsAndCallTools, callGetAvailability,
    callCheckInsurance.
  repeat match goal with
         | |- context [if ?c then _ else _] => destruct c
         | |- context [match ?x with _ => _ end] => destruct x
         end; reflexivity.
Qed.

Lemma turns_keep_connected (turns : list Turn) (a : Agent) :
  connected (fold_left (fun a t => fst (processUtterance a t)) turns a) = connected a.
Proof.
  revert a. induction turns as [| t rest IH]; intros a; simpl; [reflexivity |].
  rewrite IH. apply processUtterance_connected.
Qed.

(** [disconnect] on a connected agent pushes the record from
    [handleDisconnect] and then once more itself. *)
Lemma disconnect_connected (a : Agent) (sink : Sink) :
  connected a = true ->
  exists record, snd (disconnect a sink) = sink ++ [record; record].
Proof.
  intros Hc. unfold disconnect. rewrite Hc. simpl.
  eexists. unfold saveAudit. rewrite <- app_assoc. reflexivity.
Qed.

(** An agent that never connected (the evaluation harness) saves once. *)
Lemma disconnect_unconnected (a : Agent) (sink : Sink) :
  connected a = false -> snd (disconnect a sink) = sink ++ [auditOf a].
Proof. intros Hc. unfold disconnect. rewrite Hc. reflexivity. Qed.

(** C8 (the code departs from it): every session the webhook drives (agent
    constructed, connected, any turns, socket closed) hands its record to the
    audit sink twice. *)
Theorem teardown_saves_audit_twice (callId : string) (room : option string)
    (turns : list Turn) :
  exists record, snd (session callId room turns) = [record; record].
Proof.
  unfold session.
  apply (disconnect_connected _ []).
  rewrite turns_keep_connected. reflexivity.
Qed.

End AgentFacts.

(** ** Further properties of the transcoder *)

Section CodecMore.
Import Codec.

Lemma decoder_injective (b1 b2 : Z) :
  0 <= b1 < 256 -> 0 <= b2 < 256 ->
  mulawToPcm16Sample b1 = mulawToPcm16Sample b2 ->
  b1 = b2 \/ (b1 = 0x7F /\ b2 = 0xFF) \/ (b1 = 0xFF /\ b2 = 0x7F).
Proof.
  intros H1 H2 Heq.
  destruct (Z.eq_dec b1 0x7F) as [-> | N1]; destruct (Z.eq_dec b2 0x7F) as [-> | N2].
  - left. reflexivity.
  - right. left. split; [reflexivity |].
    rewrite <- (roundtrip_sample b2 H2 N2), <- Heq. reflexivity.
  - right. right. split; [| reflexivity].
    rewrite <- (roundtrip_sample b1 H1 N1), Heq. reflexivity.
  - left. rewrite <- (roundtrip_sample b1 H1 N1), <- (roundtrip_sample b2 H2 N2), Heq.
    reflexivity.
Qed.

(** X1: two distinct wire bytes decode to the same sample exactly when they
    are the two zero codes 0x7F and 0xFF, which both decode to 0; any other
    two distinct bytes decode to distinct samples. *)
Theorem decoder_injective_off_zero (b1 b2 : Z) :
  0 <= b1 < 256 -> 0 <= b2 < 256 -> b1 <> b2 ->
  (mulawToPcm16Sample b1 = mulawToPcm16Sample b2
   <-> (b1 = 0x7F /\ b2 = 0xFF) \/ (b1 = 0xFF /\ b2 = 0x7F))
  /\ mulawToPcm16Sample 0x7F = 0
  /\ mulawToPcm16Sample 0xFF = 0.
Proof.
  intros H1 H2 Hne. split; [| split; reflexivity].
  split.
  - intros Heq. destruct (decoder_injective b1 b2 H1 H2 Heq) as [Hsame | Hzero];
      [contradiction | exact Hzero].
  - intros [[-> ->] | [-> ->]]; reflexivity.
Qed.

(** The two zero codes, and two neighbouring loud codes. *)
Lemma decoder_injective_off_zero_witness :
  (0 <= 0x7F < 256 /\ 0 <= 0xFF < 256 /\ 0x7F <> 0xFF
   /\ 0 <= 0x10 < 256 /\ 0 <= 0x11 < 256 /\ 0x10 <> 0x11)
  /\ mulawToPcm16Sample 0x7F = mulawToPcm16Sample 0xFF
  /\ mulawToPcm16Sample 0x10 <> mulawToPcm16Sample 0x11.
Proof.
  assert (Ha : 0 <= 0x7F < 256) by lia.
  assert (Hb : 0 <= 0xFF < 256) by lia.
  assert (Hab : 0x7F <> 0xFF) by discriminate.
  assert (Hc : 0 <= 0x10 < 256) by lia.
  assert (Hd : 0 <= 0x11 < 256) by lia.
  assert (Hcd : 0x10 <> 0x11) by discriminate.
  split; [repeat split; solve [apply Ha | apply Hb | apply Hc | apply Hd | assumption] |].
  split.
  - apply (proj1 (decoder_injective_off_zero 0x7F 0xFF Ha Hb Hab)).
    left. split; reflexivity.
  - intros Heq.
    destruct (proj1 (proj1 (decoder_injective_off_zero 0x10 0x11 Hc Hd Hcd)) Heq)
      as [[Hx _] | [Hx _]]; discriminate Hx.
Defined.

Lemma symmetry_table :
  forallb (fun b => (mulawToPcm16Sample b =? - mulawToPcm16Sample (b + 128))
                    && (mulawToPcm16Sample b <=? 0)
                    && (-32124 <=? mulawToPcm16Sample b))
          (map Z.of_nat (seq 0 128)) = true.
Proof. vm_compute. reflexivity. Qed.

(** X2: the sign bit of the wire byte only flips the sign of the sample: a
    byte below 128 decodes to the negative of what the byte 128 above it
    decodes to, and no sample leaves [-32124, 32124]. *)
Theorem decoder_sign_symmetry (b : Z) :
  0 <= b < 128 ->
  mulawToPcm16Sample b = - mulawToPcm16Sample (b + 128)
  /\ -32124 <= mulawToPcm16Sample b <= 0
  /\ 0 <= mulawToPcm16Sample (b + 128) <= 32124.
Proof.
  intros Hb. pose proof symmetry_table as Hall.
  rewrite forallb_forall in Hall.
  assert (Hin : In b (map Z.of_nat (seq 0 128))).
  { rewrite <- (Z2Nat.id b) by lia. apply in_map, in_seq. lia. }
  specialize (Hall b Hin).
  rewrite !andb_true_iff in Hall. destruct Hall as [[Hsym Hneg] Hlow].
  apply Z.eqb_eq in Hsym. apply Z.leb_le in Hneg. apply Z.leb_le in Hlow. lia.
Qed.

Lemma decoder_sign_symmetry_witness :
  0 <= 0x00 < 128
  /\ mulawToPcm16Sample 0x00 = - mulawToPcm16Sample (0x00 + 128)
  /\ -32124 <= mulawToPcm16Sample 0x00 <= 0
  /\ 0 <= mulawToPcm16Sample (0x00 + 128) <= 32124.
Proof.
  assert (H : 0 <= 0x00 < 128) by lia.
  split; [exact H |]. exact (decoder_sign_symmetry 0x00 H).
Defined.

Lemma monotone_table :
  forallb (fun b => mulawToPcm16Sample (b + 1) <? mulawToPcm16Sample b)
          (map Z.of_nat (seq 128 127)) = true.
Proof. vm_compute. reflexivity. Qed.

Lemma decoder_step_down (b : Z) :
  128 <= b < 255 -> mulawToPcm16Sample (b + 1) < mulawToPcm16Sample b.
Proof.
  intros Hb. pose proof monotone_table as Hall.
  rewrite forallb_forall in Hall.
  assert (Hin : In b (map Z.of_nat (seq 128 127))).
  { rewrite <- (Z2Nat.id b) by lia. apply in_map, in_seq. lia. }
  apply Z.ltb_lt, Hall, Hin.
Qed.

(** X3: on the positive half of the table the decoder is strictly decreasing
    in the byte value: a larger byte is a quieter sample, down to 0 at 0xFF. *)
Theorem decoder_monotone (b1 b2 : Z) :
  128 <= b1 -> b1 < b2 -> b2 <= 255 ->
  mulawToPcm16Sample b2 < mulawToPcm16Sample b1.
Proof.
  intros Hlo Hlt Hhi.
  assert (Hgen : forall n : nat, 128 <= b1 -> b1 + Z.of_nat (S n) <= 255 ->
            mulawToPcm16Sample (b1 + Z.of_nat (S n)) < mulawToPcm16Sample b1).
  { induction n as [| n IH]; intros H1 H2.
    - apply decoder_step_down. lia.
    - assert (Hstep : mulawToPcm16Sample (b1 + Z.of_nat (S n) + 1)
                      < mulawToPcm16Sample (b1 + Z.of_nat (S n)))
        by (apply decoder_step_down; lia).
      replace (b1 + Z.of_nat (S (S n))) with (b1 + Z.of_nat (S n) + 1) by lia.
      specialize (IH H1 ltac:(lia)). lia. }
  replace b2 with (b1 + Z.of_nat (S (Z.to_nat (b2 - b1 - 1)))) by lia.
  apply Hgen; lia.
Qed.

Lemma decoder_monotone_witness :
  (128 <= 0x80 /\ 0x80 < 0xFF /\ 0xFF <= 255)
  /\ mulawToPcm16Sample 0xFF < mulawToPcm16Sample 0x80.
Proof.
  split; [lia |]. apply (decoder_monotone 0x80 0xFF); lia.
Defined.

End CodecMore.

(** ** Outgoing audio *)

Section Framing.
Import Webhook.

Lemma frames_spec (fuel : nat) (src : Pcm) :
  (length src <= fuel)%nat ->
  Forall (fun f => length f = FRAME_SAMPLES) (frames fuel src)
  /\ length (frames fuel src) = (length src / FRAME_SAMPLES)%nat
  /\ concat (frames fuel src)
     = firstn (FRAME_SAMPLES * (length src / FRAME_SAMPLES)) src.
Proof.
  unfold FRAME_SAMPLES. revert src.
  induction fuel as [| fuel IH]; intros src Hfuel.
  - destruct src; [| simpl in Hfuel; lia]. repeat split; constructor.
  - cbn [frames]. unfold FRAME_SAMPLES.
    destruct (Nat.ltb (length (firstn 160 src)) 160) eqn:Hshort.
    + apply Nat.ltb_lt in Hshort. rewrite length_firstn in Hshort.
      assert (Hlen : (length src < 160)%nat) by lia.
      rewrite (Nat.div_small _ _ Hlen), Nat.mul_0_r.
      repeat split; constructor.
    + apply Nat.ltb_ge in Hshort. rewrite length_firstn in Hshort.
      assert (Hlen : (160 <= length src)%nat) by lia.
      assert (Hrest : (length (skipn 160 src) <= fuel)%nat)
        by (rewrite length_skipn; lia).
      destruct (IH (skipn 160 src) Hrest) as (Hall & Hcount & Hcat).
      assert (Hdiv : (length src / 160 = S (length (skipn 160 src) / 160))%nat).
      { rewrite length_skipn.
        replace (length src) with ((length src - 160) + 1 * 160)%nat at 1 by lia.
        rewrite Nat.div_add by lia. lia. }
      repeat split.
      * constructor; [rewrite length_firstn; lia | exact Hall].
      * cbn [length]. rewrite Hcount, Hdiv. reflexivity.
      * cbn [concat]. rewrite Hcat, Hdiv.
        replace (160 * S (length (skipn 160 src) / 160))%nat
          with (160 + 160 * (length (skipn 160 src) / 160))%nat by lia.
        apply take_take_drop.
Qed.

(** X4: the frame loop cuts the source into consecutive frames of exactly 160
    samples, as many as fit; put end to end they are the source without its
    last partial frame. *)
Theorem frames_partition (src : Pcm) :
  Forall (fun f => length f = 160%nat) (frames (length src) src)
  /\ length (frames (length src) src) = (length src / 160)%nat
  /\ concat (frames (length src) src) = firstn (160 * (length src / 160)) src.
Proof. apply (frames_spec (length src) src). lia. Qed.

Lemma nth_map_seq {A : Type} (f : nat -> A) (n start i : nat) (d : A) :
  (i < n)%nat -> nth i (map f (seq start n)) d = f (start + i)%nat.
Proof.
  revert start i. induction n as [| n IH]; intros start i Hi; [lia |].
  destruct i as [| i]; simpl.
  - rewrite Nat.add_0_r. reflexivity.
  - rewrite IH by lia. f_equal. lia.
Qed.

Lemma resample_24k_length (int16 : Pcm) :
  length (resample int16 24000) = (length int16 / 3)%nat.
Proof.
  unfold resample. change (24000 =? 8000) with false. cbv iota.
  rewrite length_map, length_seq.
  replace (Z.of_nat (length int16) * 8000 / 24000) with (Z.of_nat (length int16) / 3).
  - rewrite <- (Nat2Z.id (length int16 / 3)). f_equal.
    rewrite Nat2Z.inj_div. reflexivity.
  - replace 24000 with (3 * 8000) by reflexivity.
    rewrite Z.div_mul_cancel_r by lia. reflexivity.
Qed.

(** X5: audio at 8 kHz is sent as it is; audio at 24 kHz, the rate the
    synthesizer is declared to have, is thinned to every third sample. *)
Theorem resample_rates (int16 : Pcm) :
  resample int16 8000 = int16
  /\ length (resample int16 24000) = (length int16 / 3)%nat
  /\ forall i : nat, (i < length int16 / 3)%nat ->
       nth i (resample int16 24000) 0 = nth (3 * i) int16 0.
Proof.
  split; [reflexivity |]. split; [apply resample_24k_length |].
  intros i Hi.
  pose proof (resample_24k_length int16) as Hlen.
  unfold resample in *. change (24000 =? 8000) with false in *. cbv iota in *.
  rewrite length_map, length_seq in Hlen.
  rewrite (nth_map_seq _ _ 0%nat i 0) by (rewrite Hlen; exact Hi).
  simpl (0 + i)%nat.
  f_equal.
  replace (Z.of_nat i * 24000) with (Z.of_nat i * 3 * 8000) by lia.
  rewrite Z.div_mul by lia. lia.
Qed.

(** The number of media messages of a reply is the number of full frames of the
    resampled audio, cut down to what the socket accepts, and every message
    carries the session's stream id. *)
Lemma sendPcm16AsMulaw_count (sid : option string) (int16 : Pcm)
    (sampleRate : Z) (accept : nat) :
  length (sendPcm16AsMulaw sid int16 sampleRate accept)
  = Nat.min accept (length (resample int16 sampleRate) / 160)
  /\ Forall (fun e => exists frame, e = SendMedia sid frame /\ length frame = 160%nat)
            (sendPcm16AsMulaw sid int16 sampleRate accept).
Proof.
  unfold sendPcm16AsMulaw.
  destruct (frames_spec (length (resample int16 sampleRate))
              (resample int16 sampleRate) (Nat.le_refl _)) as (Hall & Hcount & _).
  split.
  - rewrite length_map, length_firstn, Hcount. reflexivity.
  - apply Forall_map.
    assert (Hfirst : Forall (fun f => length f = 160%nat)
                       (firstn accept (frames (length (resample int16 sampleRate))
                                              (resample int16 sampleRate)))).
    { apply Forall_take. exact Hall. }
    rewrite Forall_forall in *. intros f Hf. exists f. split; [reflexivity | auto].
Qed.

End Framing.


(** ** Further properties of the turn-taking state machine *)

Section TurnMore.
Import Webhook Observe.

Lemma totalSamples_from (buf : list Pcm) (acc : Z) :
  fold_left (fun sum b => sum + Z.of_nat (length b)) buf acc
  = acc + Z.of_nat (length (concat buf)).
Proof.
  revert acc. induction buf as [| b rest IH]; intros acc; simpl; [lia |].
  rewrite IH, length_app. lia.
Qed.

(** The sample count the barge-in test computes over the buffered chunks is the
    length of the utterance [concatInt16] builds from them. *)
Lemma totalSamples_is_utterance_length (buf : list Pcm) :
  totalSamples buf = Z.of_nat (length (concatInt16 buf)).
Proof. unfold totalSamples, concatInt16. rewrite totalSamples_from. lia. Qed.

Lemma totalSamples_app (a b : list Pcm) :
  totalSamples (a ++ b) = totalSamples a + totalSamples b.
Proof.
  rewrite !totalSamples_is_utterance_length. unfold concatInt16.
  rewrite concat_app, length_app. lia.
Qed.

Lemma totalSamples_nonneg (a : list Pcm) : 0 <= totalSamples a.
Proof. rewrite totalSamples_is_utterance_length. lia. Qed.

Lemma processUtterance_wellFormed (s : Session) :
  Forall wellFormed (snd (processUtterance s)).
Proof.
  unfold processUtterance.
  destruct (processing s); [constructor |].
  destruct (Z.of_nat (length (concatInt16 (pcmBuffer s))) <? MIN_AUDIO_SAMPLES) eqn:Hlen;
    [constructor |].
  apply Z.ltb_ge in Hlen. repeat constructor. exact Hlen.
Qed.

Lemma step_wellFormed (s : Session) (now : Z) (ev : Event) :
  Forall wellFormed (snd (step s now ev)).
Proof.
  destruct ev; simpl; try constructor.
  - unfold onTick.
    repeat match goal with
           | |- context [if ?c then _ else _] => destruct c
           end; try constructor; apply processUtterance_wellFormed.
  - destruct (pending s) as [[| |] |]; try constructor.
    destruct (String.eqb text "" || Nat.ltb (Js.strLength text) 3);
      repeat constructor.
  - destruct (pending s) as [[| |] |]; repeat constructor.
  - destruct (pending s) as [[| |] |]; try constructor.
    destruct result as [[int16 rate] |]; [| constructor].
    simpl. destruct (sendPcm16AsMulaw_count (streamSid s) int16 rate accept) as [_ Hall].
    rewrite Forall_forall in *. intros e He.
    destruct (Hall e He) as (frame & -> & Hlen). exact Hlen.
  - destruct (pending s); constructor.
  - destruct (aiSpeakingTimeout s); constructor.
Qed.

Lemma run_wellFormed (evs : list (Z * Event)) (s : Session) :
  Forall wellFormed (snd (run s evs)).
Proof.
  revert s. induction evs as [| [now ev] rest IH]; intros s; simpl; [constructor |].
  pose proof (step_wellFormed s now ev) as H1.
  destruct (step s now ev) as [s1 out1]. specialize (IH s1).
  destruct (run s1 rest) as [s2 out2]. simpl in *.
  apply Forall_app. split; assumption.
Qed.

Lemma sentFrames_wellFormed (out : list Effect) :
  Forall wellFormed out -> Forall (fun frame => length frame = 160%nat) (sentFrames out).
Proof.
  induction 1 as [| e rest He _ IH]; simpl; [constructor |].
  destruct e; simpl in *; try exact IH. constructor; assumption.
Qed.

Lemma transcribed_wellFormed (out : list Effect) :
  Forall wellFormed out ->
  Forall (fun samples => MIN_AUDIO_SAMPLES <= Z.of_nat (length samples)) (transcribed out).
Proof.
  induction 1 as [| e rest He _ IH]; simpl; [constructor |].
  destruct e; simpl in *; try exact IH. constructor; assumption.
Qed.

(** X6: whatever the events and the state they start from, every media message
    sent to the caller carries exactly 160 samples: a partial frame is never
    sent. *)
Theorem only_full_frames_sent (s : Session) (evs : list (Z * Event)) :
  Forall (fun frame => length frame = 160%nat) (sentFrames (snd (run s evs))).
Proof. apply sentFrames_wellFormed, run_wellFormed. Qed.

(** X7: whatever the events and the state they start from, every utterance
    handed to speech recognition holds at least MIN_AUDIO_SAMPLES samples. *)
Theorem no_short_utterance_transcribed (s : Session) (evs : list (Z * Event)) :
  Forall (fun samples => MIN_AUDIO_SAMPLES <= Z.of_nat (length samples))
         (transcribed (snd (run s evs))).
Proof. apply transcribed_wellFormed, run_wellFormed. Qed.

End TurnMore.

Section TurnTraces.
Import Webhook Observe.

Lemma run_cons (s : Session) (now : Z) (ev : Event) (rest : list (Z * Event)) :
  run s ((now, ev) :: rest)
  = (fst (run (fst (step s now ev)) rest),
     snd (step s now ev) ++ snd (run (fst (step s now ev)) rest)).
Proof.
  cbn [run]. destruct (step s now ev) as [s1 out1]. cbn [fst snd].
  destruct (run s1 rest) as [s2 out2]. reflexivity.
Qed.

Lemma step_unstarted (s : Session) (now : Z) (ev : Event) :
  unstarted s -> isStart ev = false ->
  unstarted (fst (step s now ev)) /\ snd (step s now ev) = []
  /\ pcmBuffer (fst (step s now ev))
     = pcmBuffer s ++ decodedMedia [(now, ev)].
Proof.
  intros (Hsid & Hpend & Hproc & Ha & Ht) Hev. unfold unstarted.
  destruct ev; try discriminate; simpl.
  - unfold onMedia. rewrite Ha. simpl. tauto.
  - rewrite app_nil_r. tauto.
  - rewrite app_nil_r. tauto.
  - unfold onTick, sidSet. rewrite Hsid. simpl. rewrite app_nil_r. tauto.
  - rewrite Hpend. simpl. rewrite app_nil_r. tauto.
  - rewrite Hpend. simpl. rewrite app_nil_r. tauto.
  - rewrite Hpend. simpl. rewrite app_nil_r. tauto.
  - rewrite Hpend. simpl. rewrite app_nil_r. tauto.
  - rewrite Ht. simpl. rewrite app_nil_r. tauto.
Qed.

Lemma decodedMedia_cons (now : Z) (ev : Event) (rest : list (Z * Event)) :
  decodedMedia ((now, ev) :: rest) = decodedMedia [(now, ev)] ++ decodedMedia rest.
Proof. destruct ev; reflexivity. Qed.

Lemma run_unstarted (evs : list (Z * Event)) (s : Session) :
  unstarted s -> forallb (fun e => negb (isStart e.2)) evs = true ->
  snd (run s evs) = []
  /\ pcmBuffer (fst (run s evs)) = pcmBuffer s ++ decodedMedia evs
  /\ turnState (fst (run s evs)) = Listening.
Proof.
  revert s. induction evs as [| [now ev] rest IH]; intros s Hs Hall.
  - simpl. rewrite app_nil_r. destruct Hs as (_ & _ & Hp & Ha & _).
    unfold turnState. rewrite Ha, Hp. tauto.
  - cbn [forallb] in Hall. apply andb_true_iff in Hall. destruct Hall as [Hev Hall].
    apply negb_true_iff in Hev. cbn [snd] in Hev.
    destruct (step_unstarted s now ev Hs Hev) as (Hs1 & Hout & Hbuf).
    destruct (IH (fst (step s now ev)) Hs1 Hall) as (Hout2 & Hbuf2 & Hst).
    rewrite run_cons. cbn [fst snd].
    rewrite Hout, Hout2, Hbuf2, Hbuf, (decodedMedia_cons now ev rest), app_assoc.
    tauto.
Qed.

(** X8: as long as no [start] event has arrived, the connection sends nothing
    and hands nothing to recognition, whatever else happens; it stays
    listening, and every media frame received is kept in the buffer. *)
Theorem nothing_happens_before_start (t0 : Z) (evs : list (Z * Event)) :
  forallb (fun e => negb (isStart e.2)) evs = true ->
  snd (run (initial t0) evs) = []
  /\ pcmBuffer (fst (run (initial t0) evs)) = decodedMedia evs
  /\ turnState (fst (run (initial t0) evs)) = Listening.
Proof.
  intros Hall.
  apply (run_unstarted evs (initial t0)); [| exact Hall].
  unfold unstarted, initial. simpl. tauto.
Qed.

Lemma nothing_happens_before_start_witness :
  forallb (fun e => negb (isStart e.2)) Sample.earlyFrames = true
  /\ snd (run (initial 0) Sample.earlyFrames) = []
  /\ pcmBuffer (fst (run (initial 0) Sample.earlyFrames))
     = decodedMedia Sample.earlyFrames
  /\ turnState (fst (run (initial 0) Sample.earlyFrames)) = Listening.
Proof.
  assert (H : forallb (fun e => negb (isStart e.2)) Sample.earlyFrames = true)
    by reflexivity.
  split; [exact H |]. exact (nothing_happens_before_start 0 Sample.earlyFrames H).
Defined.

(** X9: during playback, caller frames that keep the buffered total at or
    below BARGE_IN_THRESHOLD are buffered and change nothing else: the session
    keeps speaking, its timer stays pending, both timestamps stay as they were,
    and nothing is sent. *)
Theorem quiet_frames_do_not_interrupt (s : Session) (frames : list (Z * list Z)) :
  aiSpeaking s = true ->
  totalSamples (pcmBuffer s ++ map (fun f => Codec.mulawToPcm16 f.2) frames)
  <= BARGE_IN_THRESHOLD ->
  run s (mediaEvents frames)
  = (mkSession (pcmBuffer s ++ map (fun f => Codec.mulawToPcm16 f.2) frames)
               (lastMediaAt s) (firstMediaAt s) (processing s) true
               (aiSpeakingTimeout s) (streamSid s) (pending s),
     []).
Proof.
  revert s. induction frames as [| [t mu] rest IH]; intros s Ha Htot.
  - simpl. rewrite app_nil_r. destruct s; simpl in *. subst. reflexivity.
  - unfold mediaEvents in *. cbn [map]. rewrite run_cons.
    cbn [step fst snd]. unfold onMedia. rewrite Ha.
    cbn [map fst snd] in Htot.
    assert (Hstep : totalSamples (pcmBuffer s ++ [Codec.mulawToPcm16 mu])
                    <= BARGE_IN_THRESHOLD).
    { replace (pcmBuffer s ++ Codec.mulawToPcm16 mu
                 :: map (fun f => Codec.mulawToPcm16 f.2) rest)
        with ((pcmBuffer s ++ [Codec.mulawToPcm16 mu])
                ++ map (fun f => Codec.mulawToPcm16 f.2) rest) in Htot
        by (rewrite <- app_assoc; reflexivity).
      rewrite totalSamples_app in Htot.
      pose proof (totalSamples_nonneg (map (fun f => Codec.mulawToPcm16 f.2) rest)).
      lia. }
    assert (Hno : (totalSamples (pcmBuffer s ++ [Codec.mulawToPcm16 mu])
                   >? BARGE_IN_THRESHOLD) = false).
    { apply not_true_is_false. rewrite Z.gtb_gt. lia. }
    rewrite Hno. rewrite IH; cbn [aiSpeaking pcmBuffer]; [| reflexivity |].
    + cbn. rewrite <- app_assoc. reflexivity.
    + rewrite <- app_assoc. exact Htot.
Qed.

Lemma quiet_frames_do_not_interrupt_witness :
  (aiSpeaking Scenario.speakingSession = true
   /\ totalSamples (pcmBuffer Scenario.speakingSession
                    ++ map (fun f => Codec.mulawToPcm16 f.2) Sample.fourFrames)
      <= BARGE_IN_THRESHOLD)
  /\ turnState (fst (run Scenario.speakingSession (mediaEvents Sample.fourFrames)))
     = Speaking
  /\ snd (run Scenario.speakingSession (mediaEvents Sample.fourFrames)) = [].
Proof.
  assert (Ha : aiSpeaking Scenario.speakingSession = true) by reflexivity.
  assert (Ht : totalSamples (pcmBuffer Scenario.speakingSession
                             ++ map (fun f => Codec.mulawToPcm16 f.2) Sample.fourFrames)
               <= BARGE_IN_THRESHOLD)
    by (vm_compute; discriminate).
  split; [split; [exact Ha | exact Ht] |].
  rewrite (quiet_frames_do_not_interrupt Scenario.speakingSession Sample.fourFrames Ha Ht).
  split; reflexivity.
Defined.

End TurnTraces.

Section TurnStates.
Import Webhook Observe.

Lemma step_timer (s : Session) (now : Z) (ev : Event) :
  (aiSpeaking s = true -> aiSpeakingTimeout s <> None) ->
  aiSpeaking (fst (step s now ev)) = true ->
  aiSpeakingTimeout (fst (step s now ev)) <> None.
Proof.
  intros H. destruct ev; simpl; try exact H.
  - unfold onMedia.
    destruct (aiSpeaking s) eqn:Ha;
      [destruct (totalSamples (pcmBuffer s ++ [Codec.mulawToPcm16 payload])
                 >? BARGE_IN_THRESHOLD) |];
      simpl; try rewrite Ha; intros Hx;
      first [discriminate Hx | apply H; first [reflexivity | exact Hx]].
  - unfold onTick, processUtterance.
    destruct (negb (sidSet s)); [exact H |].
    destruct (aiSpeaking s) eqn:Ha;
      repeat match goal with
             | |- context [if ?c then _ else _] => destruct c
             end;
      simpl; try rewrite Ha; intros Hx;
      first [discriminate Hx | apply H; first [reflexivity | exact Hx]].
  - destruct (pending s) as [[| |] |]; try exact H.
    destruct (String.eqb text "" || Nat.ltb (Js.strLength text) 3); simpl; exact H.
  - destruct (pending s) as [[| |] |]; simpl; exact H.
  - destruct (pending s) as [[| |] |]; try exact H.
    destruct result as [[int16 rate] |]; simpl; [discriminate | exact H].
  - destruct (pending s); simpl; exact H.
  - destruct (aiSpeakingTimeout s) eqn:Ht; simpl; [discriminate | rewrite Ht; exact H].
Qed.

Lemma run_timer (evs : list (Z * Event)) (s : Session) :
  (aiSpeaking s = true -> aiSpeakingTimeout s <> None) ->
  aiSpeaking (fst (run s evs)) = true ->
  aiSpeakingTimeout (fst (run s evs)) <> None.
Proof.
  revert s. induction evs as [| [now ev] rest IH]; intros s H; [exact H |].
  rewrite run_cons. cbn [fst]. apply IH, step_timer, H.
Qed.

(** X10: in every session reachable from a fresh connection, the playback
    timer is pending exactly while the session is speaking, a call of
    [processUtterance] is suspended exactly while [processing] is set, and the
    session is never speaking and processing at once. *)
Theorem reachable_coherent (s : Session) : reachable s -> coherent s.
Proof.
  intros Hr. pose proof (reachable_consistent s Hr) as (Hpend & Hproc & Htimer).
  destruct Hr as (t0 & evs & <-).
  pose proof (run_timer evs (initial t0)) as Harmed.
  unfold coherent. repeat split.
  - apply Harmed. simpl. discriminate.
  - intros Hsome. destruct (aiSpeaking (fst (run (initial t0) evs))); [reflexivity |].
    exfalso. apply Hsome, Htimer. reflexivity.
  - intros Hp Hn. apply Hpend in Hn. congruence.
  - intros Hn. destruct (processing (fst (run (initial t0) evs))); [reflexivity |].
    exfalso. apply Hn, Hpend. reflexivity.
  - intros [Ha Hp]. specialize (Hproc Ha). congruence.
Qed.

Lemma reachable_coherent_witness :
  reachable Scenario.speakingAtThreshold /\ coherent Scenario.speakingAtThreshold.
Proof.
  assert (Hr : reachable Scenario.speakingAtThreshold)
    by apply scenario_sessions_reachable.
  split; [exact Hr | exact (reachable_coherent Scenario.speakingAtThreshold Hr)].
Defined.

(** X11: when the pipeline of a reachable thinking session fails (a rejected
    promise at any stage, a transcript whose [length] is below three UTF-16
    code units, or no synthesized audio), nothing is sent, the session is
    listening again, the utterance start is reset and the frames buffered
    meanwhile are kept. *)
Theorem failed_pipeline_returns_to_listening (s : Session) (now : Z) (ev : Event) :
  reachable s -> turnState s = Thinking ->
  ev = Threw
  \/ (exists samples text, pending s = Some (AwaitTranscript samples)
        /\ ev = Transcript text /\ (Js.strLength text < 3)%nat)
  \/ (exists reply accept, pending s = Some (AwaitAudio reply)
        /\ ev = Audio None accept) ->
  snd (step s now ev) = []
  /\ turnState (fst (step s now ev)) = Listening
  /\ firstMediaAt (fst (step s now ev)) = 0
  /\ pcmBuffer (fst (step s now ev)) = pcmBuffer s
  /\ pending (fst (step s now ev)) = None.
Proof.
  intros Hr Hst Hev.
  destruct (thinking_flags s Hst) as [Ha Hp].
  destruct (reachable_consistent s Hr) as (Hpend & _ & _).
  assert (Hfin : step s now ev = (finish s, [])).
  { destruct Hev as [-> | [(samples & text & Hw & -> & Hlen) | (reply & accept & Hw & ->)]];
      simpl.
    - destruct (pending s) eqn:Hq; [reflexivity |].
      exfalso. assert (Hf : processing s = false) by (apply Hpend; reflexivity).
      congruence.
    - rewrite Hw. apply Nat.ltb_lt in Hlen. rewrite Hlen, orb_true_r. reflexivity.
    - rewrite Hw. reflexivity. }
  rewrite Hfin. unfold turnState. simpl. rewrite Ha. tauto.
Qed.

Lemma failed_pipeline_returns_to_listening_witness :
  (reachable Scenario.thinkingWithAudio
   /\ turnState Scenario.thinkingWithAudio = Thinking
   /\ String.length Sample.shortTranscript = 3%nat
   /\ (Js.strLength Sample.shortTranscript < 3)%nat)
  /\ snd (step Scenario.thinkingWithAudio 2400 (Transcript Sample.shortTranscript)) = []
  /\ turnState (fst (step Scenario.thinkingWithAudio 2400
                         (Transcript Sample.shortTranscript)))
     = Listening
  /\ firstMediaAt (fst (step Scenario.thinkingWithAudio 2400
                            (Transcript Sample.shortTranscript))) = 0
  /\ pcmBuffer (fst (step Scenario.thinkingWithAudio 2400
                         (Transcript Sample.shortTranscript)))
     = pcmBuffer Scenario.thinkingWithAudio
  /\ pending (fst (step Scenario.thinkingWithAudio 2400
                       (Transcript Sample.shortTranscript))) = None.
Proof.
  assert (Hr : reachable Scenario.thinkingWithAudio)
    by apply scenario_sessions_reachable.
  assert (Ht : turnState Scenario.thinkingWithAudio = Thinking) by reflexivity.
  assert (Hlen : (Js.strLength Sample.shortTranscript < 3)%nat) by (simpl; lia).
  split; [split; [exact Hr | split; [exact Ht | split; [reflexivity | exact Hlen]]] |].
  apply (failed_pipeline_returns_to_listening Scenario.thinkingWithAudio 2400
           (Transcript Sample.shortTranscript) Hr Ht).
  right. left.
  destruct (pending Scenario.thinkingWithAudio) as [[samples | |] |] eqn:Hq;
    try discriminate.
  exists samples, Sample.shortTranscript.
  split; [reflexivity | split; [reflexivity | exact Hlen]].
Defined.

(** X12: a barge-in carried by fewer than MIN_AUDIO_SAMPLES samples is lost if
    the caller then pauses: the first check more than SILENCE_MS after the
    interrupting frame drops the buffer without handing it to recognition. *)
Theorem short_barge_in_is_dropped (s : Session) (now later : Z) (mu : list Z) :
  reachable s -> turnState s = Speaking -> sidSet s = true ->
  BARGE_IN_THRESHOLD < totalSamples (pcmBuffer s ++ [Codec.mulawToPcm16 mu])
                     < MIN_AUDIO_SAMPLES ->
  later - now > SILENCE_MS ->
  let s' := fst (step s now (Media mu)) in
  turnState s' = Listening
  /\ pcmBuffer s' = pcmBuffer s ++ [Codec.mulawToPcm16 mu]
  /\ snd (run s [(now, Media mu); (later, Tick)]) = []
  /\ pcmBuffer (fst (run s [(now, Media mu); (later, Tick)])) = []
  /\ turnState (fst (run s [(now, Media mu); (later, Tick)])) = Listening.
Proof.
  intros Hr Hst Hsid [Hover Hshort] Hlate.
  destruct (reachable_consistent s Hr) as (Hpend & Hproc & _).
  assert (Ha : aiSpeaking s = true).
  { unfold turnState in Hst. destruct (aiSpeaking s); [reflexivity |].
    destruct (processing s); discriminate. }
  specialize (Hproc Ha).
  assert (Hmedia : step s now (Media mu)
                   = (mkSession (pcmBuffer s ++ [Codec.mulawToPcm16 mu]) now now
                                false false None (streamSid s) (pending s), [])).
  { simpl. unfold onMedia. rewrite Ha.
    assert (Hgt : (totalSamples (pcmBuffer s ++ [Codec.mulawToPcm16 mu])
                   >? BARGE_IN_THRESHOLD) = true) by (apply Z.gtb_gt; lia).
    rewrite Hgt, Hproc. reflexivity. }
  rewrite !run_cons, Hmedia. cbn [fst snd run app].
  set (s1 := mkSession (pcmBuffer s ++ [Codec.mulawToPcm16 mu]) now now
                       false false None (streamSid s) (pending s)).
  assert (Htick : onTick s1 later = processUtterance s1).
  { rewrite onTick_listening.
    - subst s1. cbn [lastMediaAt firstMediaAt].
      assert (Hgt : (later - now >? SILENCE_MS) = true) by (apply Z.gtb_gt; lia).
      rewrite Hgt. reflexivity.
    - subst s1. cbn [pcmBuffer]. destruct (pcmBuffer s); discriminate.
    - exact Hsid.
    - reflexivity. }
  cbn [step]. rewrite Htick. unfold processUtterance. subst s1.
  cbn [processing pcmBuffer].
  rewrite totalSamples_is_utterance_length in Hshort.
  assert (Hlt : (Z.of_nat (length (concatInt16 (pcmBuffer s ++ [Codec.mulawToPcm16 mu])))
                 <? MIN_AUDIO_SAMPLES) = true) by (apply Z.ltb_lt; lia).
  rewrite Hlt. unfold turnState. simpl. tauto.
Qed.

Lemma short_barge_in_is_dropped_witness :
  (reachable Scenario.speakingAtThreshold
   /\ turnState Scenario.speakingAtThreshold = Speaking
   /\ sidSet Scenario.speakingAtThreshold = true
   /\ BARGE_IN_THRESHOLD
      < totalSamples (pcmBuffer Scenario.speakingAtThreshold
                      ++ [Codec.mulawToPcm16 Scenario.frame20ms])
      < MIN_AUDIO_SAMPLES
   /\ 4900 - 4020 > SILENCE_MS)
  /\ snd (run Scenario.speakingAtThreshold
            [(4020, Media Scenario.frame20ms); (4900, Tick)]) = []
  /\ pcmBuffer (fst (run Scenario.speakingAtThreshold
                       [(4020, Media Scenario.frame20ms); (4900, Tick)])) = [].
Proof.
  assert (Hr : reachable Scenario.speakingAtThreshold)
    by apply scenario_sessions_reachable.
  assert (Ht : turnState Scenario.speakingAtThreshold = Speaking) by reflexivity.
  assert (Hs : sidSet Scenario.speakingAtThreshold = true) by reflexivity.
  assert (Hb : BARGE_IN_THRESHOLD
               < totalSamples (pcmBuffer Scenario.speakingAtThreshold
                               ++ [Codec.mulawToPcm16 Scenario.frame20ms])
               < MIN_AUDIO_SAMPLES)
    by (split; vm_compute; reflexivity).
  assert (Hl : 4900 - 4020 > SILENCE_MS) by (vm_compute; reflexivity).
  split; [repeat (split; [assumption |]); assumption |].
  destruct (short_barge_in_is_dropped Scenario.speakingAtThreshold 4020 4900
              Scenario.frame20ms Hr Ht Hs Hb Hl) as (_ & _ & Hout & Hbuf & _).
  split; [exact Hout | exact Hbuf].
Defined.

(** X13: outside playback, a series of media frames (time stamps non-zero) is
    appended in order; the last frame's time becomes [lastMediaAt], and the
    first frame's time becomes the utterance start unless one is already
    recorded. *)
Theorem frames_accumulate_while_listening (s : Session) (frames : list (Z * list Z)) :
  aiSpeaking s = false ->
  Forall (fun f => f.1 <> 0) frames ->
  run s (mediaEvents frames) = (afterFrames s frames, []).
Proof.
  revert s. induction frames as [| [t mu] rest IH]; intros s Ha Hnz; [reflexivity |].
  inversion Hnz as [| f l Ht Hrest]; subst. cbn [fst] in Ht.
  unfold mediaEvents in *. cbn [map]. rewrite run_cons. cbn [step fst snd].
  rewrite (onMedia_not_speaking s t mu Ha).
  rewrite IH; [| reflexivity | exact Hrest]. cbn [app fst snd]. f_equal.
  unfold afterFrames. destruct rest as [| [t2 mu2] rest2].
  - cbn [map fst snd List.last]. rewrite Ha. reflexivity.
  - cbn [pcmBuffer firstMediaAt lastMediaAt processing aiSpeaking aiSpeakingTimeout
         streamSid pending map fst snd].
    rewrite <- app_assoc. cbn [app]. rewrite Ha.
    f_equal.
    destruct (firstMediaAt s =? 0) eqn:Hz.
    + apply Z.eqb_neq in Ht. rewrite Ht. reflexivity.
    + rewrite Hz. reflexivity.
Qed.

Lemma frames_accumulate_while_listening_witness :
  (aiSpeaking (initial 0) = false
   /\ Forall (fun f => f.1 <> 0) Sample.fourFrames)
  /\ run (initial 0) (mediaEvents Sample.fourFrames)
     = (afterFrames (initial 0) Sample.fourFrames, []).
Proof.
  assert (Ha : aiSpeaking (initial 0) = false) by reflexivity.
  assert (Hf : Forall (fun f => f.1 <> 0) Sample.fourFrames)
    by (repeat constructor; discriminate).
  split; [split; [exact Ha | exact Hf] |].
  exact (frames_accumulate_while_listening (initial 0) Sample.fourFrames Ha Hf).
Defined.

End TurnStates.

(** ** The echo bridge *)

Section BridgeFacts.
Import Js Bridge.

Lemma bridge_run_cons (sid : option JSON) (msg : Message) (rest : list Message) :
  Bridge.run sid (msg :: rest)
  = (fst (Bridge.run (fst (onMessage sid msg)) rest),
     snd (onMessage sid msg) ++ snd (Bridge.run (fst (onMessage sid msg)) rest)).
Proof.
  cbn [Bridge.run]. destruct (onMessage sid msg) as [sid1 out1]. cbn [fst snd].
  destruct (Bridge.run sid1 rest) as [sid2 out2]. reflexivity.
Qed.

(** X14: the bridge echoes every media message exactly once, in the order
    received and with its payload untouched, and answers every start message
    with one [connected]; messages that fail to parse and other events produce
    nothing. *)
Theorem bridge_echoes_in_order (sid : option JSON) (msgs : list Message) :
  echoedPayloads (snd (Bridge.run sid msgs)) = receivedPayloads msgs
  /\ connecteds (snd (Bridge.run sid msgs)) = starts msgs
  /\ length (snd (Bridge.run sid msgs))
     = (length (receivedPayloads msgs) + starts msgs)%nat.
Proof.
  revert sid. induction msgs as [| msg rest IH]; intros sid; [repeat split |].
  rewrite bridge_run_cons. cbn [snd].
  destruct msg; cbn [onMessage fst snd app receivedPayloads starts echoedPayloads
                     connecteds length];
    destruct (IH sid) as (H1 & H2 & H3);
    try (destruct (IH streamSid) as (H1' & H2' & H3'));
    repeat split; try congruence; try lia.
Qed.

End BridgeFacts.

(** ** The room directory and the agent's life cycle *)

Section RoomFacts.
Import Rooms.

Lemma createRoom_result (m : Manager) (callId : string) (reply : ServiceReply) :
  (createRoom m callId reply).1.1 = roomNameOf callId
  /\ (createRoom m callId reply).1.2 = register m callId (roomNameOf callId).
Proof.
  unfold createRoom.
  destruct (negb (enabled m) || negb (roomService m)); [split; reflexivity |].
  destruct reply as [| [text |]]; try (split; reflexivity).
  destruct (Js.includes text "already exists"); split; reflexivity.
Qed.

(** X15: [createRoom] returns the name [call-<callId>] and files it under the
    call id whatever the room service answers (also when it rejects, and when
    no service client exists); rooms of other calls are untouched, and the
    service is contacted only by a manager whose client was constructed. *)
Theorem createRoom_always_registers (m : Manager) (callId : string)
    (reply : ServiceReply) :
  let '(name, m', calls) := createRoom m callId reply in
  name = String.append "call-" callId
  /\ activeRooms m' !! callId = Some name
  /\ (forall other, other <> callId -> activeRooms m' !! other = activeRooms m !! other)
  /\ (enabled m && roomService m = false -> calls = []).
Proof.
  destruct (createRoom_result m callId reply) as [Hname Hm].
  destruct (createRoom m callId reply) as [[name m'] calls] eqn:Hc.
  cbn [fst snd] in Hname, Hm. subst name m'.
  repeat split.
  - cbn. apply lookup_insert_eq.
  - intros other Hne. cbn. apply lookup_insert_ne. congruence.
  - intros Hoff. unfold createRoom in Hc.
    destruct (enabled m), (roomService m); try discriminate; cbn in Hc;
      inversion Hc; reflexivity.
Qed.

Lemma roomNameOf_nonempty (callId : string) : String.eqb (roomNameOf callId) "" = false.
Proof. reflexivity. Qed.

Lemma create_delete_roundtrip (m : Manager) (callId : string)
    (reply1 reply2 : ServiceReply) :
  activeRooms m !! callId = None ->
  (deleteRoom (createRoom m callId reply1).1.2 callId reply2).1 = m.
Proof.
  intros Hfresh.
  destruct (createRoom_result m callId reply1) as [_ ->].
  unfold deleteRoom. cbn [activeRooms register enabled roomService].
  rewrite lookup_insert_eq, roomNameOf_nonempty.
  assert (Hback : unregister (register m callId (roomNameOf callId)) callId = m).
  { unfold unregister, register. cbn [activeRooms enabled roomService].
    rewrite delete_insert_id by exact Hfresh. destruct m; reflexivity. }
  destruct (negb (enabled m) || negb (roomService m)); cbn [fst]; [exact Hback |].
  destruct reply2; cbn [fst]; exact Hback.
Qed.

(** X16: a room created for a call that had none is gone after [deleteRoom],
    and the directory is exactly what it was before the call, whatever the
    service answered to either request. *)
Theorem create_then_delete_restores (m : Manager) (callId : string)
    (reply1 reply2 : ServiceReply) :
  activeRooms m !! callId = None ->
  (deleteRoom (createRoom m callId reply1).1.2 callId reply2).1 = m.
Proof. apply create_delete_roundtrip. Qed.

Lemma create_then_delete_restores_witness :
  activeRooms Sample.busyManager !! "call-b" = None
  /\ (deleteRoom (createRoom Sample.busyManager "call-b" Resolved).1.2 "call-b"
        (Rejected (Some "not found"))).1 = Sample.busyManager.
Proof.
  assert (H : activeRooms Sample.busyManager !! "call-b" = None).
  { cbn. apply lookup_singleton_ne. discriminate. }
  split; [exact H |].
  exact (create_then_delete_restores Sample.busyManager "call-b" Resolved
           (Rejected (Some "not found")) H).
Defined.

(** X17: [deleteRoom] for a call with no room on file changes nothing and does
    not contact the service; after a deletion the call has no room, so a second
    deletion is such a no-op. *)
Theorem deleteRoom_idempotent (m : Manager) (callId : string)
    (reply1 reply2 : ServiceReply) :
  (activeRooms m !! callId = None -> deleteRoom m callId reply1 = (m, []))
  /\ (forall name, activeRooms m !! callId = Some name -> name <> "" ->
        activeRooms (deleteRoom m callId reply1).1 !! callId = None
        /\ deleteRoom (deleteRoom m callId reply1).1 callId reply2
           = ((deleteRoom m callId reply1).1, [])).
Proof.
  split.
  - intros Hnone. unfold deleteRoom. rewrite Hnone. reflexivity.
  - intros name Hsome Hne.
    assert (Hdel : (deleteRoom m callId reply1).1 = unregister m callId).
    { unfold deleteRoom. rewrite Hsome.
      destruct (String.eqb_spec name "") as [-> | _]; [congruence |].
      destruct (negb (enabled m) || negb (roomService m)); [reflexivity |].
      destruct reply1; reflexivity. }
    rewrite Hdel.
    assert (Hgone : activeRooms (unregister m callId) !! callId = None)
      by (cbn; apply lookup_delete_eq).
    split; [exact Hgone |].
    unfold deleteRoom at 1. rewrite Hgone. reflexivity.
Qed.

End RoomFacts.

Section CallFacts.
Import Js Call.

(** X18: a call that connects and later disconnects leaves no room behind: if
    the directory had no room for the call id before, it is unchanged after the
    call, whatever happened in between and whatever the service answered. *)
Theorem call_releases_room (m : Rooms.Manager) (callId : string)
    (turns : list Agent.Turn) (reply1 reply2 : Rooms.ServiceReply) :
  Rooms.activeRooms m !! callId = None ->
  let '(a1, m1, _) := connectAgent m (Agent.create callId) reply1 in
  let '(a2, sink, m2, _) := disconnectAgent m1 (runTurns a1 turns) [] reply2 in
  m2 = m /\ Agent.connected a2 = false /\ length sink = 2%nat.
Proof.
  intros Hfresh. unfold connectAgent, disconnectAgent.
  pose proof (create_delete_roundtrip m callId reply1 reply2 Hfresh) as Hback.
  cbn [Agent.callId Agent.create] in *.
  destruct (Rooms.createRoom m callId reply1) as [[name m1] calls1].
  cbn [fst snd] in Hback.
  assert (Hid : Agent.callId (runTurns (Agent.connect (Agent.create callId) (Some name))
                                       turns) = callId).
  { unfold runTurns.
    assert (Hgen : forall ts a, Agent.callId
              (fold_left (fun a t => fst (Agent.processUtterance a t)) ts a)
              = Agent.callId a).
    { induction ts as [| t ts IHt]; intros a0; [reflexivity |]. simpl. rewrite IHt.
      unfold Agent.processUtterance, Agent.extractSlotsAndCallTools,
        Agent.callGetAvailability, Agent.callCheckInsurance.
      repeat match goal with
             | |- context [if ?c then _ else _] => destruct c
             | |- context [match ?x with _ => _ end] => destruct x
             end; reflexivity. }
    rewrite Hgen. reflexivity. }
  assert (Hconn : Agent.connected
            (runTurns (Agent.connect (Agent.create callId) (Some name)) turns) = true).
  { unfold runTurns. rewrite turns_keep_connected. reflexivity. }
  unfold Agent.disconnect. rewrite Hconn. cbn [Agent.handleDisconnect].
  rewrite Hid.
  destruct (Rooms.deleteRoom m1 callId reply2) as [m2 calls2]. cbn [fst] in Hback.
  split; [exact Hback |]. split; reflexivity.
Qed.

Lemma call_releases_room_witness :
  Rooms.activeRooms Sample.busyManager !! "call-b" = None
  /\ let '(a1, m1, _) := connectAgent Sample.busyManager (Agent.create "call-b")
                            Rooms.Resolved in
     let '(a2, sink, m2, _) :=
       disconnectAgent m1 (runTurns a1 [Scenario.turnName]) [] Rooms.Resolved in
     m2 = Sample.busyManager /\ Agent.connected a2 = false /\ length sink = 2%nat.
Proof.
  assert (H : Rooms.activeRooms Sample.busyManager !! "call-b" = None).
  { cbn. apply lookup_singleton_ne. discriminate. }
  split; [exact H |].
  exact (call_releases_room Sample.busyManager "call-b" [Scenario.turnName]
           Rooms.Resolved Rooms.Resolved H).
Defined.

(** X19: a public URL with either scheme yields the same stream URL: the
    scheme is replaced by [wss://] and [/bridge] is appended, provided the rest
    does not itself begin with [http://]. *)
Theorem wssUrl_replaces_scheme (host : string) :
  startsWith host "http://" = false ->
  wssUrl (String.append "https://" host)
  = String.append "wss://" (String.append host "/bridge")
  /\ wssUrl (String.append "http://" host)
     = String.append "wss://" (String.append host "/bridge")
  /\ (startsWith host "https://" = false ->
      wssUrl host = String.append "wss://" (String.append host "/bridge")).
Proof.
  intros Hno.
  assert (Hs : hostOf (String.append "https://" host) = host).
  { unfold hostOf, stripPrefix.
    change (startsWith (String.append "https://" host) "https://") with true.
    cbv iota.
    change (dropChars (String.length "https://") (String.append "https://" host))
      with host.
    rewrite Hno. reflexivity. }
  assert (Hp : hostOf (String.append "http://" host) = host).
  { unfold hostOf, stripPrefix.
    change (startsWith (String.append "http://" host) "https://") with false.
    cbv iota.
    change (startsWith (String.append "http://" host) "http://") with true.
    cbv iota.
    change (dropChars (String.length "http://") (String.append "http://" host))
      with host.
    rewrite Hno. reflexivity. }
  unfold wssUrl. rewrite Hs, Hp. repeat split.
  intros Hnos. unfold hostOf, stripPrefix. rewrite Hnos, Hno, Hno. reflexivity.
Qed.

Lemma wssUrl_replaces_scheme_witness :
  startsWith "abc.ngrok-free.app" "http://" = false
  /\ wssUrl "https://abc.ngrok-free.app" = "wss://abc.ngrok-free.app/bridge".
Proof.
  assert (H : startsWith "abc.ngrok-free.app" "http://" = false) by reflexivity.
  split; [exact H |].
  exact (proj1 (wssUrl_replaces_scheme "abc.ngrok-free.app" H)).
Defined.

End CallFacts.

(** ** Further properties of the tool endpoints *)

Section ToolMore.
Import Js Mcp Observe.

Variable validate : JSON -> JSON -> Validation.
Variable schemaOf : string -> Schema.
Variable random36 : nat -> string.
Variable slotTimes : option JSON -> nat -> option (string * string).

Lemma simulateTool_state (name : string) (body : JSON) (st st' : Server) (r : JSON) :
  simulateTool random36 slotTimes name body st = Some (r, st') ->
  log st' = log st
  /\ (name <> "bookAppointment" -> bookingStore st' = bookingStore st)
  /\ (name <> "bookAppointment" -> name <> "sendSms" -> draws st' = draws st)
  /\ (draws st <= draws st' <= S (draws st))%nat.
Proof.
  unfold simulateTool. intros Hsim.
  destruct (String.eqb_spec name "checkInsuranceCoverage") as [-> | N1].
  { destruct (prop "payer" body) as [[| | | payer | |] |]; try discriminate.
    inversion Hsim; subst. repeat split; auto; lia. }
  destruct (String.eqb_spec name "getProviderAvailability") as [-> | N2].
  { repeat match type of Hsim with
           | match ?x with _ => _ end = _ => destruct x eqn:?
           end; try discriminate; inversion Hsim; subst; repeat split; auto; lia. }
  destruct (String.eqb_spec name "bookAppointment") as [-> | N3].
  { destruct (mapGet (prop "idempotency_key" body) (bookingStore st));
      inversion Hsim; subst; cbn; repeat split; try congruence; lia. }
  destruct (String.eqb_spec name "sendSms") as [-> | N4];
    inversion Hsim; subst; cbn; repeat split; try congruence; lia.
Qed.

Lemma route_spec (path tool : string) :
  route path = Some tool -> In tool tools /\ routeMatches tool path = true.
Proof. unfold route. intros H. apply find_some in H. exact H. Qed.

(** X20: a request changes the booking store only when the [bookAppointment]
    route takes its path, and draws a random number only when that route or
    the [sendSms] route takes it, at most one per request. *)
Theorem post_state_changes (path : string) (body : JSON) (st : Server) :
  let st' := snd (post validate schemaOf random36 slotTimes path body st) in
  (routeMatches "bookAppointment" path = false -> bookingStore st' = bookingStore st)
  /\ (routeMatches "bookAppointment" path = false ->
      routeMatches "sendSms" path = false -> draws st' = draws st)
  /\ (draws st <= draws st' <= S (draws st))%nat.
Proof.
  unfold post.
  destruct (route path) as [tool |] eqn:Hroute; [| cbn; repeat split; auto; lia].
  destruct (route_spec _ _ Hroute) as [_ Hmatch].
  assert (Hbook : routeMatches "bookAppointment" path = false -> tool <> "bookAppointment")
    by (intros Hno ->; congruence).
  assert (Hsms : routeMatches "sendSms" path = false -> tool <> "sendSms")
    by (intros Hno ->; congruence).
  unfold handle.
  destruct (negb (ok (validate (input (schemaOf tool)) body)));
    [cbn; repeat split; auto; lia |].
  destruct (simulateTool random36 slotTimes tool body st) as [[r st1] |] eqn:Hsim;
    [| cbn; repeat split; auto; lia].
  destruct (simulateTool_state _ _ _ _ _ Hsim) as (_ & Hstore & Hdraw & Hbound).
  destruct (negb (ok (validate (output (schemaOf tool)) r))); cbn;
    repeat split; auto; lia.
Qed.

(** X21: a request is logged exactly when it is answered with status 200: the
    log then grows by the one record of the registered tool name (however the
    request spelled its path), the request body and the result; otherwise the
    log is unchanged. *)
Theorem logged_iff_answered_200 (path : string) (body : JSON) (st : Server) :
  let '(resp, st') := post validate schemaOf random36 slotTimes path body st in
  (exists tool result,
      In tool tools /\ routeMatches tool path = true
      /\ resp = Json 200 result
      /\ log st' = log st ++ [mkLogEntry tool body result])
  \/ ((forall result, resp <> Json 200 result) /\ log st' = log st).
Proof.
  unfold post.
  destruct (route path) as [tool |] eqn:Hroute;
    [| right; split; [discriminate | reflexivity]].
  destruct (route_spec _ _ Hroute) as [Hin Hmatch].
  unfold handle.
  destruct (negb (ok (validate (input (schemaOf tool)) body)));
    [right; split; [discriminate | reflexivity] |].
  destruct (simulateTool random36 slotTimes tool body st) as [[r st1] |] eqn:Hsim;
    [| right; split; [discriminate | reflexivity]].
  destruct (simulateTool_state _ _ _ _ _ Hsim) as (Hlog & _).
  destruct (negb (ok (validate (output (schemaOf tool)) r))).
  - right. split; [discriminate | exact Hlog].
  - left. exists tool, r. cbn. rewrite Hlog. repeat split; assumption.
Qed.

Lemma mapSet_absent (key : option JSON) (v : JSON) (store : list (option JSON * JSON)) :
  mapGet key store = None -> mapSet key v store = store ++ [(key, v)].
Proof.
  induction store as [| [k v'] rest IH]; simpl; [reflexivity |].
  destruct (sameValueZero key k); [discriminate |].
  intros H. rewrite IH by exact H. reflexivity.
Qed.

(** [simulateTool] calls [bookingStore.set] only after [has] said no, so the
    call adds an entry at the end of the store. *)
Lemma simulateTool_appends (name : string) (body : JSON) (st st' : Server) (r : JSON) :
  simulateTool random36 slotTimes name body st = Some (r, st') ->
  bookingStore st' = bookingStore st
  \/ bookingStore st' = bookingStore st ++ [(prop "idempotency_key" body, r)].
Proof.
  intros Hsim.
  destruct (String.eqb_spec name "bookAppointment") as [-> | Hne].
  - unfold simulateTool in Hsim. simpl in Hsim.
    destruct (mapGet (prop "idempotency_key" body) (bookingStore st)) eqn:Hget;
      inversion Hsim; subst; [left; reflexivity |].
    right. cbn [bookingStore]. apply mapSet_absent, Hget.
  - destruct (simulateTool_state _ _ _ _ _ Hsim) as (_ & Hstore & _).
    left. apply Hstore, Hne.
Qed.

Lemma post_appends (path : string) (body : JSON) (st : Server) :
  let st' := snd (post validate schemaOf random36 slotTimes path body st) in
  bookingStore st' = bookingStore st
  \/ exists r, bookingStore st' = bookingStore st ++ [(prop "idempotency_key" body, r)].
Proof.
  unfold post.
  destruct (route path) as [tool |]; [| left; reflexivity].
  unfold handle.
  destruct (negb (ok (validate (input (schemaOf tool)) body))); [left; reflexivity |].
  destruct (simulateTool random36 slotTimes tool body st) as [[r st1] |] eqn:Hsim;
    [| left; reflexivity].
  assert (H : bookingStore st1 = bookingStore st
              \/ exists r, bookingStore st1
                           = bookingStore st ++ [(prop "idempotency_key" body, r)]).
  { destruct (simulateTool_appends _ _ _ _ _ Hsim) as [H | H];
      [left; exact H | right; exists r; exact H]. }
  destruct (negb (ok (validate (output (schemaOf tool)) r))); exact H.
Qed.

(** X22: the booking store is append-only.  Whatever requests a server
    answers, the store it had is a prefix of the store it has afterwards, at
    most one entry longer per request: no booking is ever removed, replaced or
    moved, and a key that had a confirmation keeps that confirmation. *)
Theorem booking_store_is_append_only (st : Server) (reqs : list (string * JSON)) :
  let st' := serve validate schemaOf random36 slotTimes st reqs in
  bookingStore st `prefix_of` bookingStore st'
  /\ (length (bookingStore st') <= length (bookingStore st) + length reqs)%nat
  /\ forall key out,
       mapGet key (bookingStore st) = Some out ->
       mapGet key (bookingStore st') = Some out.
Proof.
  cbv zeta. split; [| split].
  - revert st. induction reqs as [| [path body] rest IH]; intros st; [reflexivity |].
    simpl. etrans; [| apply IH].
    destruct (post_appends path body st) as [-> | [r ->]];
      [reflexivity | apply prefix_app_r; reflexivity].
  - revert st. induction reqs as [| [path body] rest IH]; intros st; [simpl; lia |].
    simpl. etrans; [apply IH |].
    destruct (post_appends path body st) as [-> | [r ->]];
      [| rewrite length_app]; simpl; lia.
  - intros key out. apply serve_keeps_bookings.
Qed.

(** X23: when a first booking passes input validation but its result fails the
    output schema, the client gets 500 with the validation errors, yet the
    booking stays in the store and its random draw is spent; nothing is logged,
    and the same request sent again gets the same 500 from the stored result. *)
Theorem rejected_output_still_books (body : JSON) (st : Server) (key : string) :
  let result := JObj [("confirmation_id",
                       JStr (String.append "CONF-"
                               (toUpperCase (slice 2 10 (random36 (draws st))))));
                      ("status", JStr "booked")] in
  let verdict := validate (output (schemaOf "bookAppointment")) result in
  prop "idempotency_key" body = Some (JStr key) ->
  mapGet (Some (JStr key)) (bookingStore st) = None ->
  ok (validate (input (schemaOf "bookAppointment")) body) = true ->
  ok verdict = false ->
  exists st1,
    post validate schemaOf random36 slotTimes "bookAppointment" body st
    = (Json 500 (rejection (errors verdict)), st1)
    /\ mapGet (Some (JStr key)) (bookingStore st1) = Some result
    /\ draws st1 = S (draws st)
    /\ log st1 = log st
    /\ post validate schemaOf random36 slotTimes "bookAppointment" body st1
       = (Json 500 (rejection (errors verdict)), st1).
Proof.
  intros result verdict Hkey Hfresh Hin Hbad.
  set (st1 := mkServer (mapSet (Some (JStr key)) result (bookingStore st))
                       (S (draws st)) (log st)).
  assert (Hstored : mapGet (Some (JStr key)) (bookingStore st1) = Some result).
  { subst st1. cbn. apply mapGet_mapSet_same. simpl. apply String.eqb_refl. }
  exists st1.
  assert (Hfirst : post validate schemaOf random36 slotTimes "bookAppointment" body st
                   = (Json 500 (rejection (errors verdict)), st1)).
  { unfold post. change (route "bookAppointment") with (Some "bookAppointment").
    cbv iota. unfold handle. rewrite Hin. simpl negb. cbv iota.
    unfold simulateTool. simpl String.eqb. cbv iota.
    rewrite Hkey, Hfresh. fold result. fold st1. fold verdict. rewrite Hbad.
    reflexivity. }
  assert (Hagain : post validate schemaOf random36 slotTimes "bookAppointment" body st1
                   = (Json 500 (rejection (errors verdict)), st1)).
  { unfold post. change (route "bookAppointment") with (Some "bookAppointment").
    cbv iota. unfold handle. rewrite Hin. simpl negb. cbv iota.
    unfold simulateTool. simpl String.eqb. cbv iota.
    rewrite Hkey, Hstored. fold verdict. rewrite Hbad. reflexivity. }
  repeat split; assumption.
Qed.

Lemma lower_upper (c : ascii) : lowerAscii (upperAscii c) = lowerAscii c.
Proof. destruct c as [[] [] [] [] [] [] [] []]; reflexivity. Qed.

Lemma toLowerCase_toUpperCase (s : string) : toLowerCase (toUpperCase s) = toLowerCase s.
Proof.
  induction s as [| c s IH]; [reflexivity |].
  unfold toLowerCase, toUpperCase in *. simpl. rewrite lower_upper, IH. reflexivity.
Qed.

Lemma toLowerCase_idempotent (s : string) : toLowerCase (toLowerCase s) = toLowerCase s.
Proof.
  induction s as [| c s IH]; [reflexivity |].
  unfold toLowerCase in *. simpl. rewrite IH. f_equal.
  destruct c as [[] [] [] [] [] [] [] []]; reflexivity.
Qed.

(** X24: the coverage answer does not depend on the letter case of the payer:
    a payer, its upper-case form and its lower-case form get the same result. *)
Theorem coverage_ignores_case (payer : string) (rest : list (string * JSON))
    (st : Server) :
  let ask := fun p =>
    simulateTool random36 slotTimes "checkInsuranceCoverage"
      (JObj (("payer", JStr p) :: rest)) st in
  ask (toUpperCase payer) = ask payer /\ ask (toLowerCase payer) = ask payer.
Proof.
  unfold simulateTool. simpl.
  rewrite toLowerCase_toUpperCase, toLowerCase_idempotent. split; reflexivity.
Qed.

End ToolMore.

Section ToolMoreWitnesses.
Import Js Mcp.

Lemma rejected_output_still_books_witness :
  (prop "idempotency_key" Scenario.bookingBody = Some (JStr "call-17-slot-0900")
   /\ mapGet (Some (JStr "call-17-slot-0900")) (bookingStore emptyServer) = None
   /\ ok (Scenario.requireField (input (Sample.strictSchema "bookAppointment"))
            Scenario.bookingBody) = true
   /\ ok (Scenario.requireField (output (Sample.strictSchema "bookAppointment"))
            (JObj [("confirmation_id", JStr "CONF-4FZYO82M");
                   ("status", JStr "booked")])) = false)
  /\ exists st1,
       post Scenario.requireField Sample.strictSchema Scenario.fixedRandom
         Scenario.noCalendar "bookAppointment" Scenario.bookingBody emptyServer
       = (Json 500 (rejection (JArr [JStr "receipt_url"])), st1)
       /\ mapGet (Some (JStr "call-17-slot-0900")) (bookingStore st1)
          = Some (JObj [("confirmation_id", JStr "CONF-4FZYO82M");
                        ("status", JStr "booked")])
       /\ draws st1 = 1%nat
       /\ log st1 = []
       /\ post Scenario.requireField Sample.strictSchema Scenario.fixedRandom
            Scenario.noCalendar "bookAppointment" Scenario.bookingBody st1
          = (Json 500 (rejection (JArr [JStr "receipt_url"])), st1).
Proof.
  split; [repeat split |].
  exact (rejected_output_still_books Scenario.requireField Sample.strictSchema
           Scenario.fixedRandom Scenario.noCalendar Scenario.bookingBody emptyServer
           "call-17-slot-0900" eq_refl eq_refl eq_refl eq_refl).
Defined.

End ToolMoreWitnesses.

(** ** Further properties of the conversation agent *)

Section AgentMore.
Import Js Agent Call Observe.

Ltac agent_cases :=
  unfold extractSlotsAndCallTools, callGetAvailability, callCheckInsurance, pushTranscript;
  repeat match goal with
         | |- context [if ?c then _ else _] => destruct c
         | |- context [match ?x with _ => _ end] => destruct x
         end.

Lemma extract_transcript (a : Agent) (t : Turn) :
  transcript (extractSlotsAndCallTools a t) = transcript a.
Proof. agent_cases; reflexivity. Qed.

Lemma processUtterance_transcript (a : Agent) (t : Turn) :
  transcript (fst (processUtterance a t))
  = transcript a ++ mkEntry "user" (userText t) (userTs t)
      :: match aiResponse t with
         | Some reply => [mkEntry "agent" reply (agentTs t)]
         | None => []
         end.
Proof.
  unfold processUtterance.
  destruct (aiResponse t); cbn [fst]; [cbn [pushTranscript transcript] |];
    rewrite extract_transcript; cbn [pushTranscript transcript];
    [rewrite <- app_assoc |]; reflexivity.
Qed.

(** X25: every turn adds the caller's utterance to the transcript, and the
    agent's reply when one was generated: after a series of turns the
    transcript has grown by one entry per turn plus one per answered turn. *)
Theorem transcript_length (a : Agent) (turns : list Turn) :
  length (transcript (runTurns a turns))
  = (length (transcript a) + length turns + answered turns)%nat.
Proof.
  unfold runTurns, answered. revert a.
  induction turns as [| t rest IH]; intros a; [simpl; lia |].
  cbn [fold_left]. rewrite IH, processUtterance_transcript, length_app.
  cbn [List.filter length]. destruct (aiResponse t); cbn [length]; lia.
Qed.

Lemma pushIntent_prefix (name : string) (l : list string) :
  l `prefix_of` pushIntent name l.
Proof.
  unfold pushIntent. destruct (hasIntent name l); [reflexivity |].
  apply prefix_app_r. reflexivity.
Qed.

Lemma processUtterance_grows (a : Agent) (t : Turn) :
  transcript a `prefix_of` transcript (fst (processUtterance a t))
  /\ toolTrace a `prefix_of` toolTrace (fst (processUtterance a t))
  /\ intents a `prefix_of` intents (fst (processUtterance a t)).
Proof.
  split; [rewrite processUtterance_transcript; apply prefix_app_r; reflexivity |].
  unfold processUtterance.
  assert (Hx : toolTrace a `prefix_of` toolTrace (extractSlotsAndCallTools
                 (pushTranscript a (mkEntry "user" (userText t) (userTs t))) t)
               /\ intents a `prefix_of` intents (extractSlotsAndCallTools
                 (pushTranscript a (mkEntry "user" (userText t) (userTs t))) t)).
  { agent_cases; cbn [toolTrace intents]; split;
      try reflexivity;
      repeat first [ apply prefix_app_r
                   | etrans; [| apply pushIntent_prefix] ];
      try reflexivity. }
  destruct (aiResponse t); cbn [fst pushTranscript toolTrace intents]; exact Hx.
Qed.

(** X26: the transcript, the tool trace and the intents of an agent only grow
    at the end: what they held before a series of turns is a prefix of what
    they hold after it. *)
Theorem records_are_append_only (a : Agent) (turns : list Turn) :
  transcript a `prefix_of` transcript (runTurns a turns)
  /\ toolTrace a `prefix_of` toolTrace (runTurns a turns)
  /\ intents a `prefix_of` intents (runTurns a turns).
Proof.
  unfold runTurns. revert a.
  induction turns as [| t rest IH]; intros a; [repeat split; reflexivity |].
  cbn [fold_left].
  destruct (processUtterance_grows a t) as (H1 & H2 & H3).
  destruct (IH (fst (processUtterance a t))) as (I1 & I2 & I3).
  repeat split; etrans; eassumption.
Qed.

Lemma hasIntent_false (name : string) (l : list string) :
  hasIntent name l = false -> name ∉ l.
Proof.
  unfold hasIntent. intros H Hin. apply list_elem_of_In in Hin.
  assert (Ht : existsb (String.eqb name) l = true).
  { apply existsb_exists. exists name. split; [exact Hin | apply String.eqb_refl]. }
  congruence.
Qed.

Lemma pushIntent_NoDup (name : string) (l : list string) :
  NoDup l -> NoDup (pushIntent name l).
Proof.
  intros Hl. unfold pushIntent. destruct (hasIntent name l) eqn:Hh; [exact Hl |].
  apply NoDup_app. split; [exact Hl |]. split.
  - intros x Hx Hin. apply list_elem_of_singleton in Hin. subst x.
    exact (hasIntent_false _ _ Hh Hx).
  - apply NoDup_singleton.
Qed.

Lemma processUtterance_NoDup (a : Agent) (t : Turn) :
  NoDup (intents a) -> NoDup (intents (fst (processUtterance a t))).
Proof.
  intros Hn. unfold processUtterance.
  assert (Hx : NoDup (intents (extractSlotsAndCallTools
                 (pushTranscript a (mkEntry "user" (userText t) (userTs t))) t))).
  { agent_cases; cbn [intents]; repeat apply pushIntent_NoDup; exact Hn. }
  destruct (aiResponse t); cbn [fst pushTranscript intents]; exact Hx.
Qed.

(** X27: the intents of a call hold no name twice, whatever the turns. *)
Theorem intents_never_repeat (callId : string) (room : option string)
    (turns : list Turn) :
  NoDup (intents (runTurns (connect (create callId) room) turns)).
Proof.
  unfold runTurns.
  assert (Hgen : forall todo a, NoDup (intents a) ->
            NoDup (intents (fold_left (fun a t => fst (processUtterance a t)) todo a))).
  { induction todo as [| t todo IH]; intros a Ha; [exact Ha |].
    simpl. apply IH, processUtterance_NoDup, Ha. }
  apply Hgen. cbn. constructor.
Qed.

Lemma pushIntent_Forall (P : string -> Prop) (name : string) (l : list string) :
  P name -> Forall P l -> Forall P (pushIntent name l).
Proof.
  intros Hn Hl. unfold pushIntent. destruct (hasIntent name l); [exact Hl |].
  apply Forall_app. split; [exact Hl | repeat constructor; exact Hn].
Qed.

Lemma processUtterance_tame (a : Agent) (t : Turn) :
  tame a -> tame (fst (processUtterance a t)).
Proof.
  intros [Hi Ht]. unfold processUtterance, tame.
  assert (Hx : tame (extractSlotsAndCallTools
                 (pushTranscript a (mkEntry "user" (userText t) (userTs t))) t)).
  { unfold tame. agent_cases; cbn [intents toolTrace]; split;
      repeat (apply pushIntent_Forall; [tauto |]); try exact Hi;
      repeat (apply Forall_app; split); try exact Ht;
      repeat constructor; cbn; tauto. }
  destruct (aiResponse t); cbn [fst pushTranscript intents toolTrace]; exact Hx.
Qed.

Lemma tame_outcome (a : Agent) :
  tame a -> outcome (auditOf a) = mkOutcome false JNull "Pending".
Proof.
  intros [Hi Ht]. unfold auditOf. cbn [outcome].
  assert (Hb : hasIntent "book_appointment" (intents a) = false).
  { unfold hasIntent. induction Hi as [| i l [-> | ->] _ IH]; simpl; auto. }
  assert (Hs : hasIntent "send_sms" (intents a) = false).
  { unfold hasIntent. induction Hi as [| i l [-> | ->] _ IH]; simpl; auto. }
  assert (Hf : find (fun c => String.eqb (tool c) "book_appointment") (toolTrace a) = None).
  { induction Ht as [| c l [Hc | Hc] _ IH]; simpl; [reflexivity | |];
      rewrite Hc; simpl; exact IH. }
  rewrite Hb, Hs, Hf. reflexivity.
Qed.

(** X28: no call ever ends with a booking on record: nothing in the agent adds
    the intents or the tool call the outcome is derived from, so every audit
    record says not booked, no confirmation id, next steps "Pending". *)
Theorem audit_outcome_is_always_pending (callId : string) (room : option string)
    (turns : list Turn) :
  Forall (fun record => outcome record = mkOutcome false JNull "Pending")
         (snd (session callId room turns)).
Proof.
  unfold session.
  assert (Hgen : forall todo a, tame a ->
            tame (fold_left (fun a t => fst (processUtterance a t)) todo a)).
  { induction todo as [| t todo IH]; intros a Ha; [exact Ha |].
    simpl. apply IH, processUtterance_tame, Ha. }
  assert (Ht : tame (fold_left (fun a t => fst (processUtterance a t)) turns
                       (connect (create callId) room))).
  { apply Hgen. split; constructor. }
  set (a := fold_left (fun a t => fst (processUtterance a t)) turns
              (connect (create callId) room)) in *.
  assert (Hoff : tame (mkAgent (Agent.callId a) (roomName a) false (transcript a)
                         (toolTrace a) (slots a) (intents a) (slotsProto a)))
    by exact Ht.
  unfold disconnect, handleDisconnect, saveAudit.
  destruct (connected a); cbn [fst snd app];
    repeat constructor; apply tame_outcome; assumption.
Qed.

(** The one property name that [Object.assign] may not store: while the target
    holds no [__proto__] of its own and inherits the setter, a property of that
    name goes to the setter, and the properties after it are stored as usual. *)
Lemma objectAssign_without_proto_key (source : list (string * JSON))
    (target : gmap string JSON * Proto) :
  "__proto__" ∉ source.*1 ->
  (objectAssign target source).1 !! "__proto__" = target.1 !! "__proto__".
Proof.
  revert target. induction source as [| [k0 v0] rest IH]; intros target Hnot;
    [reflexivity |].
  unfold objectAssign in *. cbn [fold_left fst snd].
  rewrite fmap_cons, not_elem_of_cons in Hnot. destruct Hnot as [Hne Hrest].
  rewrite (IH _ Hrest). unfold setProperty.
  destruct (String.eqb_spec k0 "__proto__") as [-> | Hk]; [contradiction Hne; reflexivity |].
  cbn. apply lookup_insert_ne. exact Hk.
Qed.

Lemma objectAssign_proto_key (source : list (string * JSON)) (own : gmap string JSON) :
  own !! "__proto__" = None ->
  NoDup source.*1 ->
  (objectAssign (own, ObjectPrototype) source).1 !! "__proto__" = None.
Proof.
  revert own. induction source as [| [k0 v0] rest IH]; intros own Hown Hnd;
    [exact Hown |].
  rewrite fmap_cons, NoDup_cons in Hnd. destruct Hnd as [Hfirst Hnd].
  change (objectAssign (own, ObjectPrototype) ((k0, v0) :: rest))
    with (objectAssign (setProperty (own, ObjectPrototype) k0 v0) rest).
  destruct (String.eqb_spec k0 "__proto__") as [-> | Hk].
  - rewrite (objectAssign_without_proto_key _ _ Hfirst).
    unfold setProperty, inheritsSetter. cbn [fst snd]. rewrite Hown.
    change (String.eqb "__proto__" "__proto__") with true. cbn [andb].
    destruct v0; exact Hown.
  - assert (Hset : setProperty (own, ObjectPrototype) k0 v0
                   = (<[k0 := v0]> own, ObjectPrototype)).
    { unfold setProperty. destruct (String.eqb_spec k0 "__proto__"); [contradiction |].
      reflexivity. }
    rewrite Hset. apply IH; [| exact Hnd].
    rewrite lookup_insert_ne by exact Hk. exact Hown.
Qed.

(** X29: after a turn whose extraction parsed, each slot holds the value of
    the last property of that name in the extraction, [null] included, and
    keeps its former value when the extraction does not name it; a slot that
    was present is still present.  The name [__proto__] is the exception: on a
    slots object that has no such property and its first prototype, an
    extraction that lists it (once, as a parsed object does) leaves no slot of
    that name. *)
Theorem slots_take_last_write (a : Agent) (t : Turn) (props : list (string * JSON))
    (k : string) :
  extraction t = Some props ->
  k <> "__proto__" ->
  slots (fst (processUtterance a t)) !! k
  = match assoc k (rev props) with
    | Some v => Some v
    | None => slots a !! k
    end
  /\ (is_Some (slots a !! k) -> is_Some (slots (fst (processUtterance a t)) !! k))
  /\ (slots a !! "__proto__" = None -> slotsProto a = ObjectPrototype ->
      NoDup props.*1 ->
      slots (fst (processUtterance a t)) !! "__proto__" = None).
Proof.
  intros Hex Hk. rewrite processUtterance_slots, Hex.
  rewrite objectAssign_lookup by exact Hk. cbn [fst].
  split; [reflexivity |]. split.
  - destruct (assoc k (rev props)); [intros _; eexists; reflexivity | tauto].
  - intros Hown Hproto Hnd. rewrite Hproto. apply objectAssign_proto_key; assumption.
Qed.

Lemma slots_take_last_write_witness :
  (extraction Sample.turnProto
   = Some [("__proto__", JObj [("phone", JStr "0")]);
           ("phone", JStr "+14085551234"); ("payer", JNull)]
   /\ "phone" <> "__proto__")
  /\ slots (fst (processUtterance (create "call-17") Sample.turnProto)) !! "phone"
     = Some (JStr "+14085551234")
  /\ slots (fst (processUtterance (create "call-17") Sample.turnProto)) !! "__proto__"
     = None.
Proof.
  assert (Hne : "phone" <> "__proto__") by discriminate.
  split; [split; [reflexivity | exact Hne] |].
  destruct (slots_take_last_write (create "call-17") Sample.turnProto _ "phone"
              eq_refl Hne) as (Hphone & _ & Hproto).
  split; [exact Hphone |].
  apply Hproto; [reflexivity | reflexivity |].
  apply (bool_decide_unpack _). vm_compute. reflexivity.
Defined.

(** X30: when the extraction request fails or its answer does not parse, the
    turn goes on: slots, tool trace and intents are what they were, and the
    reply is still generated and returned. *)
Theorem failed_extraction_is_harmless (a : Agent) (t : Turn) :
  extraction t = None ->
  slots (fst (processUtterance a t)) = slots a
  /\ toolTrace (fst (processUtterance a t)) = toolTrace a
  /\ intents (fst (processUtterance a t)) = intents a
  /\ snd (processUtterance a t) = aiResponse t.
Proof.
  intros Hex. unfold processUtterance, extractSlotsAndCallTools. rewrite Hex.
  destruct (aiResponse t); repeat split.
Qed.

Lemma failed_extraction_is_harmless_witness :
  extraction Sample.turnGarbled = None
  /\ slots (fst (processUtterance (create "call-17") Sample.turnGarbled)) = ∅
  /\ snd (processUtterance (create "call-17") Sample.turnGarbled)
     = Some "Could you repeat that?".
Proof.
  assert (H : extraction Sample.turnGarbled = None) by reflexivity.
  split; [exact H |].
  destruct (failed_extraction_is_harmless (create "call-17") Sample.turnGarbled H)
    as (Hs & _ & _ & Hr).
  split; [exact Hs | exact Hr].
Defined.

End AgentMore.
